(** * gstvaapiencode_h265.c: NAL byte-stream scanning, hvc1 rewriting and
      profile selection

    A shallow embedding of the three algorithmic pieces of
    [gst/vaapi/gstvaapiencode_h265.c]:

    - [_h265_byte_stream_next_nal]  (the NAL scanner),
    - [_start_code_to_size] and [_h265_convert_byte_stream_to_hvc]
      (the in-place rewrite of start codes into 4-byte sizes),
    - [find_best_profile_value] and [find_best_profile]
      (the profile selector).

    Pointers into the mapped buffer are offsets ([Z]) into a [list byte];
    [guint32] values are [Z] with the wrap-around written out; [g_assert]
    is a GLib macro that is not part of the file, so whether assertions are
    compiled in is a parameter of every function that uses it. *)

From Stdlib Require Import String.
From Stdlib Require Import ZArith List Bool Lia.
From Stdlib Require Import Strings.Byte.
Import ListNotations.
Open Scope Z_scope.

(** ** Machine data *)

(** Value of a [guint8] as an integer in [0, 256). *)
Definition byte_val (b : byte) : Z := Z.of_N (Byte.to_N b).

(** Conversion of an [int] to [guint8] (the store into [nal_start_code[i]]). *)
Definition to_guint8 (z : Z) : byte :=
  match Byte.of_N (Z.to_N (z mod 256)) with
  | Some b => b
  | None => x00
  end.

(** Conversion to [guint32]. *)
Definition guint32 (z : Z) : Z := z mod 2 ^ 32.

(** Outcome of a call: it returns a value, a [g_assert] stops the program,
    or it stores a byte outside the mapped buffer, after which C defines no
    behaviour. *)
Inductive status (A : Type) : Type :=
| Returned (a : A)
| Aborted
| OutOfBounds.
Arguments Returned {A} a.
Arguments Aborted {A}.
Arguments OutOfBounds {A}.

(** [g_assert (cond)] followed by the rest of the function.  [asserts] says
    whether assertions are compiled in (no [G_DISABLE_ASSERT]). *)
Definition g_assert {A : Type} (asserts cond : bool) (k : status A) : status A :=
  if asserts && negb cond then Aborted else k.

(** ** The NAL scanner *)

Module Scanner.

(** [buffer[i]] as an integer. *)
Definition at_ (buffer : list byte) (i : nat) : Z := byte_val (nth i buffer x00).

(** "locate head position": the width of the start code at the head of the
    buffer ([nal_start_len]); only called with [len >= 3]. *)
Definition locate_head (buffer : list byte) (len : Z) : Z :=
  if (at_ buffer 0 =? 0) && (at_ buffer 1 =? 0) then
    if at_ buffer 2 =? 1 then 3
    else if (at_ buffer 2 =? 0) && (4 <=? len) && (at_ buffer 3 =? 1) then 4
    else 0
  else 0.

(** One update of the sliding window:
    [flag = (flag << 8) | (next byte & 0xFF)], the byte being read through
    [cur], which is then incremented. *)
Definition shift_in (flag : Z) (b : byte) : Z :=
  Z.lor (guint32 (Z.shiftl flag 8)) (Z.land (byte_val b) 255).

(** "find next nal start position": the [while (cur < end)] loop.  [bytes] is
    the memory between [cur] and [end].  The result is the value of [cur]
    after the loop and, when the loop was left by [break], the value it stored
    in [*nal_size]. *)
Fixpoint find_next (bytes : list byte) (cur flag nal_start : Z) : Z * option Z :=
  match bytes with
  | [] => (cur, None)
  | b :: rest =>
      let flag := shift_in flag b in
      let cur := cur + 1 in
      if Z.land flag 16777215 =? 1 then
        if flag =? 1 then (cur, Some (guint32 (cur - 4 - nal_start)))
        else (cur, Some (guint32 (cur - 3 - nal_start)))
      else find_next rest cur flag nal_start
  end.

(** [_h265_byte_stream_next_nal (buffer, len, &nal_size)], for the region
    [buffer .. buffer + len) given as a list.  The result is the returned
    pointer (as an offset from [buffer], [None] for [NULL]) and the final
    [*nal_size].  [buffer] and [nal_size] are never [NULL] here, which leaves
    [len != 0U] of the assertion.  When the loop ends ahead of [end] it has
    ended by [break] and [found] is the size it stored. *)
Definition _h265_byte_stream_next_nal (asserts : bool) (buffer : list byte)
  : status (option Z * Z) :=
  let len := Z.of_nat (length buffer) in
  let end_ := len in
  g_assert asserts (negb (len =? 0))
    (if len <? 3 then
       Returned ((if len =? 0 then None else Some 0), len)
     else
       let nal_start_len := locate_head buffer len in
       let nal_start := nal_start_len in
       let '(cur, found) :=
         find_next (skipn (Z.to_nat nal_start) buffer) nal_start 4294967295 nal_start in
       if end_ <=? cur then
         let nal_size := guint32 (end_ - nal_start) in
         Returned ((if end_ <=? nal_start then None else Some nal_start), nal_size)
       else
         Returned (Some nal_start, match found with Some s => s | None => 0 end)).

End Scanner.

Import Scanner.

(** ** The rewrite of a byte-stream buffer into size-prefixed form *)

Module Rewriter.

(** A [GstBuffer] as this file sees it: whether [gst_buffer_map] with
    [GST_MAP_READ | GST_MAP_WRITE] succeeds on it, and the bytes the mapping
    gives ([info.data], of length [info.size]). *)
Record GstBuffer : Type := {
  buffer_writable : bool;
  buffer_data : list byte
}.

Definition gst_buffer_map (buf : GstBuffer) : option (list byte) :=
  if buffer_writable buf then Some (buffer_data buf) else None.

(** [gst_buffer_unmap]: the bytes written through the mapping are the
    buffer's content from then on. *)
Definition gst_buffer_unmap (buf : GstBuffer) (data : list byte) : GstBuffer :=
  {| buffer_writable := buffer_writable buf; buffer_data := data |}.

(** [data[i] = b]: the buffer after the store, [None] when [i] is not within
    the mapping. *)
Fixpoint store (data : list byte) (i : nat) (b : byte) : option (list byte) :=
  match data, i with
  | [], _ => None
  | _ :: rest, O => Some (b :: rest)
  | b0 :: rest, S i =>
      match store rest i b with
      | Some rest' => Some (b0 :: rest')
      | None => None
      end
  end.

(** [_start_code_to_size (nal_start_code, nal_size)], the pointer
    [nal_start_code] being an offset into [data]: the buffer after the four
    stores, [None] when one of them is not within the mapping. *)
Definition _start_code_to_size (data : list byte) (nal_start_code : Z)
  (nal_size : Z) : option (list byte) :=
  let i := Z.to_nat nal_start_code in
  match store data i (to_guint8 (Z.land (Z.shiftr nal_size 24) 255)) with
  | None => None
  | Some data =>
      match store data (i + 1) (to_guint8 (Z.land (Z.shiftr nal_size 16) 255)) with
      | None => None
      | Some data =>
          match store data (i + 2) (to_guint8 (Z.land (Z.shiftr nal_size 8) 255)) with
          | None => None
          | Some data => store data (i + 3) (to_guint8 (Z.land nal_size 255))
          end
      end
  end.

(** What one evaluation of the loop condition and body does: go round again
    with the changed buffer and the new [nal_start_code], or leave the loop
    and return [TRUE] or [FALSE]. *)
Inductive step : Type :=
| Continue (data : list byte) (nal_start_code : Z)
| Leave (ok : bool) (data : list byte).

(** The region handed to the scanner: [len] bytes from [nal_start_code],
    where [len] is [frame_end - nal_start_code] converted to [guint32]. *)
Definition region (data : list byte) (nal_start_code : Z) : list byte :=
  let frame_end := Z.of_nat (length data) in
  firstn (Z.to_nat (guint32 (frame_end - nal_start_code)))
         (skipn (Z.to_nat nal_start_code) data).

Definition loop_body (asserts : bool) (data : list byte) (nal_start_code : Z)
  : status step :=
  let frame_end := Z.of_nat (length data) in
  if nal_start_code <? frame_end then
    match _h265_byte_stream_next_nal asserts (region data nal_start_code) with
    | Aborted => Aborted
    | OutOfBounds => OutOfBounds
    | Returned (None, _) => Returned (Leave true data)
    | Returned (Some nal_body, nal_size) =>
        if nal_size =? 0 then Returned (Leave false data)
        else
          g_assert asserts (nal_body =? 4)
            match _start_code_to_size data nal_start_code nal_size with
            | Some data' =>
                Returned (Continue data' (nal_start_code + nal_body + nal_size))
            | None => OutOfBounds
            end
    end
  else Returned (Leave true data).

(** The [while] loop, at most [fuel] times round; [None] when [fuel] does not
    suffice. *)
Fixpoint convert_loop (asserts : bool) (fuel : nat) (data : list byte)
  (nal_start_code : Z) : option (status (bool * list byte)) :=
  match fuel with
  | O => None
  | S fuel =>
      match loop_body asserts data nal_start_code with
      | Aborted => Some Aborted
      | OutOfBounds => Some OutOfBounds
      | Returned (Leave ok data') => Some (Returned (ok, data'))
      | Returned (Continue data' nal_start_code') =>
          convert_loop asserts fuel data' nal_start_code'
      end
  end.

(** [_h265_convert_byte_stream_to_hvc (buf)], for a [buf] that is not [NULL]:
    the returned [gboolean] and the buffer as the call leaves it.  The loop
    is given one round more than the buffer has bytes. *)
Definition _h265_convert_byte_stream_to_hvc (asserts : bool) (buf : GstBuffer)
  : option (status (bool * GstBuffer)) :=
  match gst_buffer_map buf with
  | None => Some (Returned (false, buf))
  | Some data =>
      match convert_loop asserts (S (length data)) data 0 with
      | None => None
      | Some Aborted => Some Aborted
      | Some OutOfBounds => Some OutOfBounds
      | Some (Returned (ok, data')) => Some (Returned (ok, gst_buffer_unmap buf data'))
      end
  end.

(** A buffer in writable memory holding [data]. *)
Definition writable_buffer (data : list byte) : GstBuffer :=
  {| buffer_writable := true; buffer_data := data |}.

End Rewriter.

Import Rewriter.

(** ** The profile selector *)

Module ProfileSelector.

(** [GstVaapiProfile] is an enumeration whose value 0 is
    [GST_VAAPI_PROFILE_UNKNOWN]. *)
Definition GstVaapiProfile : Type := N.
Definition GST_VAAPI_PROFILE_UNKNOWN : GstVaapiProfile := 0%N.

(** What this file asks of a [GValue]: does it hold a string (which may be
    [NULL]), a list of values, or something else. *)
#[warnings="-register-all"]
Inductive GValue : Type :=
| GString (str : option string)
| GList (values : list GValue)
| GOther.

(** A [GstStructure] is its fields in order; a [GstCaps] its structures. *)
Definition GstStructure : Type := list (string * GValue).
Definition GstCaps : Type := list GstStructure.

Fixpoint gst_structure_get_value (structure : GstStructure)
  (fieldname : string) : option GValue :=
  match structure with
  | [] => None
  | (name, value) :: rest =>
      if String.eqb name fieldname then Some value
      else gst_structure_get_value rest fieldname
  end.

Record FindBestProfileData : Type := {
  best_profile : GstVaapiProfile;
  best_score : N
}.

Section Selector.

(** The two functions of gstvaapiutils_h265 that the selector calls. *)
Variable gst_vaapi_utils_h265_get_profile_from_string :
  string -> GstVaapiProfile.
Variable gst_vaapi_utils_h265_get_profile_score : GstVaapiProfile -> N.

(** [find_best_profile_value (data, value)]: the new content of [*data].
    [value] is [None] for a [NULL] pointer. *)
Definition find_best_profile_value (data : FindBestProfileData)
  (value : option GValue) : FindBestProfileData :=
  match value with
  | Some (GString (Some str)) =>
      let profile := gst_vaapi_utils_h265_get_profile_from_string str in
      if (profile =? 0)%N then data
      else
        let score := gst_vaapi_utils_h265_get_profile_score profile in
        if (score <? best_score data)%N then data
        else {| best_profile := profile; best_score := score |}
  | _ => data
  end.

(** The body of the loop over the structures of the caps. *)
Definition visit_structure (data : FindBestProfileData)
  (structure : GstStructure) : FindBestProfileData :=
  match gst_structure_get_value structure "profile"%string with
  | None => data
  | Some (GString str) => find_best_profile_value data (Some (GString str))
  | Some (GList values) =>
      fold_left (fun d v => find_best_profile_value d (Some v)) values data
  | Some GOther => data
  end.

Definition find_best_profile (caps : GstCaps) : GstVaapiProfile :=
  best_profile
    (fold_left visit_structure caps
       {| best_profile := GST_VAAPI_PROFILE_UNKNOWN; best_score := 0%N |}).

End Selector.

End ProfileSelector.

Import ProfileSelector.

(** ** The element: configuration, caps and output buffers *)

Module Element.

(** [GstFlowReturn] values of GStreamer that the file names. *)
Definition GstFlowReturn : Type := Z.
Definition GST_FLOW_OK : GstFlowReturn := 0.
Definition GST_FLOW_ERROR : GstFlowReturn := -5.

(** [gst_structure_has_field_typed (structure, fieldname, G_TYPE_STRING)] and
    [gst_structure_get_string (structure, fieldname)], the latter [None] for
    [NULL]: the field is missing, is not a string, or is a [NULL] string. *)
Definition gst_structure_has_field_typed_string (structure : GstStructure)
  (fieldname : string) : bool :=
  match gst_structure_get_value structure fieldname with
  | Some (GString _) => true
  | _ => false
  end.

Definition gst_structure_get_string (structure : GstStructure)
  (fieldname : string) : option string :=
  match gst_structure_get_value structure fieldname with
  | Some (GString str) => str
  | _ => None
  end.

(** [gst_caps_set_simple (caps, fieldname, G_TYPE_STRING, str, NULL)] on caps
    of one structure: the field takes the value, in its place if the
    structure has the field and at the end if not. *)
Fixpoint gst_caps_set_simple (structure : GstStructure) (fieldname : string)
  (str : option string) : GstStructure :=
  match structure with
  | [] => [(fieldname, GString str)]
  | (name, value) :: rest =>
      if String.eqb name fieldname then (name, GString str) :: rest
      else (name, value) :: gst_caps_set_simple rest fieldname str
  end.

(** [gst_caps_from_string (GST_CODEC_CAPS)]: the fields of
    "video/x-h265, stream-format = (string) { hvc1, byte-stream },
     alignment = (string) au". *)
Definition GST_CODEC_CAPS : GstStructure :=
  [("stream-format"%string,
    GList [GString (Some "hvc1"%string); GString (Some "byte-stream"%string)]);
   ("alignment"%string, GString (Some "au"%string))].

(** The loop of [gst_vaapiencode_h265_get_caps] over the structures of the
    allowed caps, [for (i = 0; !stream_format && i < num_structures; i++)]:
    [stream_format] is the variable of that name, [structures] the structures
    from index [i] on. *)
Fixpoint stream_format_loop (stream_format : option string)
  (structures : list GstStructure) : option string :=
  match stream_format, structures with
  | None, structure :: rest =>
      if gst_structure_has_field_typed_string structure "stream-format"
      then stream_format_loop
             (gst_structure_get_string structure "stream-format") rest
      else stream_format_loop None rest
  | _, _ => stream_format
  end.

(** What [gst_vaapiencode_h265_get_caps] leaves: the caps it returns and the
    two flags it sets. *)
Record CapsResult : Type := {
  result_caps : GstStructure;
  result_is_hvc : bool;
  result_need_codec_data : bool
}.

Section ElementFunctions.

(** The functions of gstvaapiutils_h265 and of the encoder object that the
    element calls, and the constant for an unknown tier. *)
Variable gst_vaapi_utils_h265_get_profile_from_string : string -> GstVaapiProfile.
Variable gst_vaapi_utils_h265_get_profile_score : GstVaapiProfile -> N.
Variable gst_vaapi_utils_h265_get_profile_string : GstVaapiProfile -> option string.
Variable gst_vaapi_utils_h265_get_level_string : Z -> option string.
Variable gst_vaapi_utils_h265_get_tier_string : Z -> option string.
Variable GST_VAAPI_TIER_H265_UNKNOWN : Z.
Variable Encoder : Type.
Variable gst_vaapi_encoder_h265_set_max_profile :
  Encoder -> GstVaapiProfile -> bool * Encoder.

(** [gst_vaapiencode_h265_set_config]: [allowed_caps] is what
    [gst_pad_get_allowed_caps] returns ([None] for [NULL]); the result is the
    returned [gboolean] and the encoder as the call leaves it. *)
Definition gst_vaapiencode_h265_set_config (encoder : Encoder)
  (allowed_caps : option GstCaps) : bool * Encoder :=
  match allowed_caps with
  | None => (true, encoder)
  | Some caps =>
      let profile :=
        find_best_profile gst_vaapi_utils_h265_get_profile_from_string
          gst_vaapi_utils_h265_get_profile_score caps in
      if (profile =? 0)%N then (true, encoder)
      else
        let '(ok, encoder') :=
          gst_vaapi_encoder_h265_set_max_profile encoder profile in
        if ok then (true, encoder') else (false, encoder')
  end.

(** [gst_vaapiencode_h265_get_caps]: [is_hvc] is [encode->is_hvc] on entry,
    [allowed_caps] what [gst_pad_get_allowed_caps] returns, and [profile],
    [tier], [level] what [gst_vaapi_encoder_h265_get_profile_tier_level]
    leaves in the three variables. *)
Definition gst_vaapiencode_h265_get_caps (is_hvc : bool)
  (allowed_caps : option GstCaps) (profile : GstVaapiProfile)
  (tier level : Z) : CapsResult :=
  let caps := GST_CODEC_CAPS in
  let is_hvc :=
    match allowed_caps with
    | Some structures =>
        match stream_format_loop None structures with
        | Some stream_format => String.eqb stream_format "hvc1"
        | None => false
        end
    | None => is_hvc
    end in
  let caps :=
    gst_caps_set_simple caps "stream-format"
      (Some (if is_hvc then "hvc1" else "byte-stream")%string) in
  let need_codec_data := is_hvc in
  let caps :=
    if (profile =? GST_VAAPI_PROFILE_UNKNOWN)%N then caps
    else
      let caps :=
        gst_caps_set_simple caps "profile"
          (gst_vaapi_utils_h265_get_profile_string profile) in
      if level =? 0 then caps
      else
        let caps :=
          gst_caps_set_simple caps "level"
            (gst_vaapi_utils_h265_get_level_string level) in
        if tier =? GST_VAAPI_TIER_H265_UNKNOWN then caps
        else
          gst_caps_set_simple caps "tier"
            (gst_vaapi_utils_h265_get_tier_string tier) in
  {| result_caps := caps;
     result_is_hvc := is_hvc;
     result_need_codec_data := need_codec_data |}.

End ElementFunctions.

(** [gst_vaapiencode_h265_alloc_buffer].  [checks] says whether
    [g_return_val_if_fail] is compiled in, [encoder_present] whether
    [encoder != NULL], [is_hvc] is [encode->is_hvc], [out_buffer0] is
    [*out_buffer_ptr] on entry, and [parent] is what the [alloc_buffer] of
    the parent class returns and leaves in [*out_buffer_ptr] ([None] for
    [NULL]).  The result is the returned
    [GstFlowReturn] and [*out_buffer_ptr] as the call leaves it.  A [NULL]
    buffer fails the assertion of [_h265_convert_byte_stream_to_hvc], and
    without assertions it fails [gst_buffer_map]. *)
Definition gst_vaapiencode_h265_alloc_buffer (asserts checks : bool)
  (encoder_present is_hvc : bool) (out_buffer0 : option GstBuffer)
  (parent : GstFlowReturn * option GstBuffer)
  : option (status (GstFlowReturn * option GstBuffer)) :=
  if checks && negb encoder_present then
    Some (Returned (GST_FLOW_ERROR, out_buffer0))
  else
    let '(ret, out_buffer) := parent in
    if negb (ret =? GST_FLOW_OK) then Some (Returned (ret, out_buffer))
    else if negb is_hvc then Some (Returned (GST_FLOW_OK, out_buffer))
    else
      match out_buffer with
      | None =>
          Some (g_assert asserts false (Returned (GST_FLOW_ERROR, None)))
      | Some buf =>
          match _h265_convert_byte_stream_to_hvc asserts buf with
          | None => None
          | Some Aborted => Some Aborted
          | Some OutOfBounds => Some OutOfBounds
          | Some (Returned (true, buf')) =>
              Some (Returned (GST_FLOW_OK, Some buf'))
          | Some (Returned (false, _)) =>
              Some (Returned (GST_FLOW_ERROR, None))
          end
      end.

End Element.

Import Element.

(** ** Definitions used in the statements *)

(** The 32-bit window holding four bytes, most recent last. *)
Definition window (w3 w2 w1 w0 : byte) : Z :=
  byte_val w3 * 2 ^ 24 + byte_val w2 * 2 ^ 16 + byte_val w1 * 2 ^ 8 + byte_val w0.

(** Does 00 00 01 occur somewhere in [bytes]? *)
Fixpoint has_start_code (bytes : list byte) : bool :=
  match bytes with
  | b0 :: rest =>
      match rest with
      | b1 :: b2 :: _ =>
          ((byte_val b0 =? 0) && (byte_val b1 =? 0) && (byte_val b2 =? 1))
          || has_start_code rest
      | _ => false
      end
  | [] => false
  end.

(** How many bytes the loop has read decides which window bytes still hold
    the initial FF. *)
Definition fresh (k : Z) (w3 w2 w1 w0 : byte) : Prop :=
  (k < 4 -> w3 = xff) /\ (k < 3 -> w2 = xff) /\ (k < 2 -> w1 = xff)
  /\ (k < 1 -> w0 = xff).

(** The byte stream made of the given NAL payloads, each behind the 4-byte
    start code 00 00 00 01. *)
Definition start_code4 : list byte := [x00; x00; x00; x01].

Definition byte_stream (payloads : list (list byte)) : list byte :=
  flat_map (fun payload => start_code4 ++ payload) payloads.

(** A 32-bit unsigned integer as four bytes, most significant first, and the
    integer that four such bytes stand for. *)
Definition be32 (n : Z) : list byte :=
  [to_guint8 (n / 2 ^ 24 mod 256); to_guint8 (n / 2 ^ 16 mod 256);
   to_guint8 (n / 2 ^ 8 mod 256); to_guint8 (n mod 256)].

Definition be32_value (field : list byte) : Z :=
  fold_left (fun acc b => acc * 256 + byte_val b) field 0.

(** The same payloads as size-prefixed records. *)
Definition length_prefixed (payloads : list (list byte)) : list byte :=
  flat_map (fun payload => be32 (Z.of_nat (length payload)) ++ payload) payloads.

(** A NAL payload of a well-formed byte stream: not empty, and no start code
    inside it. *)
Definition well_formed_payload (payload : list byte) : Prop :=
  payload <> [] /\ has_start_code payload = false.

(** [reaches asserts (data, cursor) (data', cursor')]: starting the loop of
    the rewrite with buffer [data] and [nal_start_code = cursor], some number
    of full rounds leads to the loop condition being evaluated with buffer
    [data'] and [nal_start_code = cursor']. *)
Inductive reaches (asserts : bool) : list byte * Z -> list byte * Z -> Prop :=
| reaches_here (s : list byte * Z) : reaches asserts s s
| reaches_round (data : list byte) (cursor : Z) (data' : list byte)
    (cursor' : Z) (s : list byte * Z) :
    loop_body asserts data cursor = Returned (Continue data' cursor') ->
    reaches asserts (data', cursor') s ->
    reaches asserts (data, cursor) s.

(** The profile a value handed to [find_best_profile_value] stands for, if it
    stands for one: the value is a string that is not [NULL] and
    [identify] knows it. *)
Definition resolve (identify : string -> GstVaapiProfile)
  (value : option GValue) : option GstVaapiProfile :=
  match value with
  | Some (GString (Some str)) =>
      if (identify str =? 0)%N then None else Some (identify str)
  | _ => None
  end.

(** The values that [find_best_profile] hands to [find_best_profile_value]
    for one structure, and for the whole caps, in the order of the calls. *)
Definition structure_candidates (structure : GstStructure)
  : list (option GValue) :=
  match gst_structure_get_value structure "profile"%string with
  | Some (GString str) => [Some (GString str)]
  | Some (GList values) => map Some values
  | _ => []
  end.

Definition candidates (caps : GstCaps) : list (option GValue) :=
  flat_map structure_candidates caps.

(** A structure that offers no profile [identify] knows: no "profile" field,
    or one whose strings are all unknown. *)
Definition offers_no_profile (identify : string -> GstVaapiProfile)
  (structure : GstStructure) : Prop :=
  match gst_structure_get_value structure "profile"%string with
  | None => True
  | Some (GList values) =>
      Forall (fun v => resolve identify (Some v) = None) values
  | Some v => resolve identify (Some v) = None
  end.

(** A capability provider with two profiles of the same rank, for the
    examples. *)
Definition demo_identify (str : string) : GstVaapiProfile :=
  if String.eqb str "main" then 1%N
  else if String.eqb str "main-10" then 2%N
  else if String.eqb str "main-444" then 3%N
  else 0%N.

Definition demo_score (profile : GstVaapiProfile) : N :=
  match profile with
  | 1%N => 5%N
  | 2%N => 5%N
  | 3%N => 3%N
  | _ => 0%N
  end.

Definition demo_caps : GstCaps :=
  [ [("stream-format"%string, GString (Some "hvc1"%string));
     ("profile"%string, GString (Some "main"%string))];
    [("profile"%string,
      GList [GString (Some "main-10"%string); GString (Some "main-444"%string)])] ].

Definition demo_unknown_caps : GstCaps :=
  [ [("stream-format"%string, GString (Some "hvc1"%string))];
    [("profile"%string, GString (Some "high"%string))];
    [("profile"%string,
      GList [GString (Some "baseline"%string); GOther; GString None])];
    [("profile"%string, GOther)] ].

(** Buffers for the examples. *)
Definition two_unit_stream : list byte :=
  [x00; x00; x00; x01; xaa; xbb; x00; x00; x00; x01; xcc].

Definition mixed_stream : list byte :=
  [x00; x00; x01; xaa; x00; x00; x00; x01; xbb; xcc; xdd].

Definition trailing_start_code_stream : list byte :=
  [x00; x00; x00; x01; xaa; x00; x00; x01].

Definition empty_unit_stream : list byte :=
  [x00; x00; x00; x01; xaa; x00; x00; x00; x01; x00; x00; x01; xbb].

(** ** Further definitions used in the statements *)

(** The 3-byte start code. *)
Definition start_code3 : list byte := [x00; x00; x01].

(** A list of bytes is one of the two start codes. *)
Definition is_start_code (bytes : list byte) : Prop :=
  bytes = start_code3 \/ bytes = start_code4.

(** A NAL payload as an encoder emits it: not empty, free of start codes, and
    not ending in a zero byte. *)
Definition nal_payload (payload : list byte) : Prop :=
  payload <> []
  /\ has_start_code payload = false
  /\ byte_val (last payload x00) <> 0.

(** What may follow a unit in a byte stream: nothing, or a start code and at
    least one more byte. *)
Definition unit_boundary (rest : list byte) : Prop :=
  rest = []
  \/ exists marker b rest', is_start_code marker /\ rest = marker ++ b :: rest'.

(** Two caps with the same candidates in different order, for the
    examples. *)
Definition main_first_caps : GstCaps :=
  [ [("profile"%string, GString (Some "main"%string))];
    [("profile"%string, GString (Some "main-444"%string))] ].

Definition main_last_caps : GstCaps :=
  [ [("profile"%string,
      GList [GString (Some "main-444"%string); GString (Some "main"%string)])] ].

(** An encoder that records the maximum profile it is given and accepts every
    profile but 3, for the examples. *)
Definition demo_set_max_profile (encoder : option GstVaapiProfile)
  (profile : GstVaapiProfile) : bool * option GstVaapiProfile :=
  if (profile =? 3)%N then (false, encoder) else (true, Some profile).

(** Allowed caps whose first "stream-format" string is hvc1, for the
    examples. *)
Definition hvc1_caps : GstCaps :=
  [ [("profile"%string, GString (Some "main"%string))];
    [("stream-format"%string, GString None)];
    [("stream-format"%string, GString (Some "hvc1"%string))];
    [("stream-format"%string, GString (Some "byte-stream"%string))] ].

(** ** Bytes and the sliding window *)

(** Turns boolean comparisons on [Z] in the context and the goal into
    propositions, for [lia]. *)
Ltac zbool :=
  repeat match goal with
  | H : (_ =? _) = true |- _ => apply Z.eqb_eq in H
  | H : (_ =? _) = false |- _ => apply Z.eqb_neq in H
  | H : (_ <? _) = true |- _ => apply Z.ltb_lt in H
  | H : (_ <? _) = false |- _ => apply Z.ltb_ge in H
  | H : (_ <=? _) = true |- _ => apply Z.leb_le in H
  | H : (_ <=? _) = false |- _ => apply Z.leb_gt in H
  | |- (_ =? _) = true => apply Z.eqb_eq
  | |- (_ =? _) = false => apply Z.eqb_neq
  | |- (_ <? _) = true => apply Z.ltb_lt
  | |- (_ <? _) = false => apply Z.ltb_ge
  | |- (_ <=? _) = true => apply Z.leb_le
  | |- (_ <=? _) = false => apply Z.leb_gt
  end.

Lemma byte_val_range (b : byte) : 0 <= byte_val b < 256.
Proof.
  unfold byte_val. pose proof (Byte.to_N_bounded b). lia.
Qed.

Lemma to_guint8_val (z : Z) : 0 <= z < 256 -> byte_val (to_guint8 z) = z.
Proof.
  intros Hz. unfold to_guint8, byte_val.
  rewrite Z.mod_small by lia.
  destruct (Byte.of_N (Z.to_N z)) as [b|] eqn:E.
  - apply Byte.to_of_N in E. rewrite E. lia.
  - apply Byte.of_N_None_iff in E. lia.
Qed.

Lemma guint32_small (z : Z) : 0 <= z < 2 ^ 32 -> guint32 z = z.
Proof. intros. unfold guint32. apply Z.mod_small. assumption. Qed.

Lemma guint32_le (z : Z) : 0 <= z -> 0 <= guint32 z <= z.
Proof.
  intros Hz. unfold guint32. split.
  - apply Z.mod_pos_bound. lia.
  - apply Z.mod_le; lia.
Qed.

(** [high] has its low 8 bits clear, [low] fits in 8 bits: or is addition. *)
Lemma lor_low_byte (high low : Z) :
  0 <= low < 256 -> Z.lor (high * 2 ^ 8) low = high * 2 ^ 8 + low.
Proof.
  intros Hlow.
  assert (Hdisj : Z.land (high * 2 ^ 8) low = 0).
  { apply Z.bits_inj'. intros n Hn.
    rewrite Z.land_spec, Z.bits_0.
    destruct (Z.lt_ge_cases n 8) as [Hlt | Hge].
    - rewrite Z.mul_pow2_bits_low by lia. reflexivity.
    - replace low with (low mod 2 ^ 8) by (apply Z.mod_small; lia).
      rewrite Z.mod_pow2_bits_high by lia. apply andb_false_r. }
  rewrite <- Z.lxor_lor by exact Hdisj.
  symmetry. apply Z.add_nocarry_lxor. exact Hdisj.
Qed.

Lemma shift_in_window (w3 w2 w1 w0 b : byte) :
  shift_in (window w3 w2 w1 w0) b = window w2 w1 w0 b.
Proof.
  unfold shift_in, window, guint32.
  pose proof (byte_val_range w3). pose proof (byte_val_range w2).
  pose proof (byte_val_range w1). pose proof (byte_val_range w0).
  pose proof (byte_val_range b).
  rewrite Z.shiftl_mul_pow2 by lia.
  replace 255 with (Z.ones 8) by reflexivity.
  rewrite Z.land_ones by lia.
  rewrite (Z.mod_small (byte_val b)) by lia.
  replace ((byte_val w3 * 2 ^ 24 + byte_val w2 * 2 ^ 16 + byte_val w1 * 2 ^ 8
            + byte_val w0) * 2 ^ 8)
    with (byte_val w3 * 2 ^ 32
          + (byte_val w2 * 2 ^ 16 + byte_val w1 * 2 ^ 8 + byte_val w0) * 2 ^ 8)
    by lia.
  rewrite Z.add_comm, Z.mod_add by lia.
  rewrite Z.mod_small by lia.
  rewrite lor_low_byte by lia. lia.
Qed.

Lemma window_low24 (w3 w2 w1 w0 : byte) :
  Z.land (window w3 w2 w1 w0) 16777215
  = byte_val w2 * 2 ^ 16 + byte_val w1 * 2 ^ 8 + byte_val w0.
Proof.
  unfold window.
  pose proof (byte_val_range w3). pose proof (byte_val_range w2).
  pose proof (byte_val_range w1). pose proof (byte_val_range w0).
  replace 16777215 with (Z.ones 24) by reflexivity.
  rewrite Z.land_ones by lia.
  replace (byte_val w3 * 2 ^ 24 + byte_val w2 * 2 ^ 16 + byte_val w1 * 2 ^ 8
           + byte_val w0)
    with ((byte_val w2 * 2 ^ 16 + byte_val w1 * 2 ^ 8 + byte_val w0)
          + byte_val w3 * 2 ^ 24) by lia.
  rewrite Z.mod_add by lia.
  apply Z.mod_small. lia.
Qed.

(** The loop's first test: the low three bytes of the window are 00 00 01. *)
Lemma window_matches (w3 w2 w1 w0 : byte) :
  (Z.land (window w3 w2 w1 w0) 16777215 =? 1)
  = (byte_val w2 =? 0) && (byte_val w1 =? 0) && (byte_val w0 =? 1).
Proof.
  rewrite window_low24.
  pose proof (byte_val_range w2). pose proof (byte_val_range w1).
  pose proof (byte_val_range w0).
  destruct (byte_val w2 =? 0) eqn:E2; destruct (byte_val w1 =? 0) eqn:E1;
    destruct (byte_val w0 =? 1) eqn:E0; simpl; zbool; lia.
Qed.

(** The loop's second test: the whole window is 00 00 00 01. *)
Lemma window_is_one (w3 w2 w1 w0 : byte) :
  (window w3 w2 w1 w0 =? 1)
  = (byte_val w3 =? 0) && (byte_val w2 =? 0) && (byte_val w1 =? 0)
    && (byte_val w0 =? 1).
Proof.
  unfold window.
  pose proof (byte_val_range w3). pose proof (byte_val_range w2).
  pose proof (byte_val_range w1). pose proof (byte_val_range w0).
  destruct (byte_val w3 =? 0) eqn:E3; destruct (byte_val w2 =? 0) eqn:E2;
    destruct (byte_val w1 =? 0) eqn:E1; destruct (byte_val w0 =? 1) eqn:E0;
    simpl; zbool; lia.
Qed.

(** ** The scanning loop *)

Lemma has_start_code_cons (b0 b1 b2 : byte) (rest : list byte) :
  has_start_code (b0 :: b1 :: b2 :: rest)
  = ((byte_val b0 =? 0) && (byte_val b1 =? 0) && (byte_val b2 =? 1))
    || has_start_code (b1 :: b2 :: rest).
Proof. reflexivity. Qed.

Lemma find_next_cons (b : byte) (rest : list byte) (cur nal_start : Z)
  (w3 w2 w1 w0 : byte) :
  find_next (b :: rest) cur (window w3 w2 w1 w0) nal_start
  = if (byte_val w1 =? 0) && (byte_val w0 =? 0) && (byte_val b =? 1) then
      if byte_val w2 =? 0 then (cur + 1, Some (guint32 (cur + 1 - 4 - nal_start)))
      else (cur + 1, Some (guint32 (cur + 1 - 3 - nal_start)))
    else find_next rest (cur + 1) (window w2 w1 w0 b) nal_start.
Proof.
  cbn [find_next]. rewrite shift_in_window, window_matches, window_is_one.
  destruct (byte_val w2 =? 0), (byte_val w1 =? 0), (byte_val w0 =? 0),
    (byte_val b =? 1); reflexivity.
Qed.

(** No start code in what is read (the two bytes before it counted in): the
    loop runs to [end] without a [break]. *)
Lemma find_next_clean (bytes : list byte) :
  forall (cur nal_start : Z) (w3 w2 w1 w0 : byte),
    has_start_code (w1 :: w0 :: bytes) = false ->
    find_next bytes cur (window w3 w2 w1 w0) nal_start
    = (cur + Z.of_nat (length bytes), None).
Proof.
  induction bytes as [| b rest IH]; intros cur nal_start w3 w2 w1 w0 Hclean.
  - simpl. f_equal. lia.
  - rewrite find_next_cons.
    rewrite has_start_code_cons in Hclean.
    apply orb_false_elim in Hclean as [Hhere Hrest].
    rewrite Hhere.
    rewrite IH by exact Hrest.
    f_equal. simpl length. lia.
Qed.

(** A payload without start code followed by 00 00 00 01: the loop leaves by
    [break] right after the 01, the window being 00 00 00 01. *)
Lemma find_next_marker (payload : list byte) :
  forall (rest : list byte) (cur nal_start : Z) (w3 w2 w1 w0 : byte),
    has_start_code (w1 :: w0 :: payload) = false ->
    find_next (payload ++ x00 :: x00 :: x00 :: x01 :: rest) cur
      (window w3 w2 w1 w0) nal_start
    = (cur + Z.of_nat (length payload) + 4,
       Some (guint32 (cur + Z.of_nat (length payload) - nal_start))).
Proof.
  induction payload as [| b payload IH];
    intros rest cur nal_start w3 w2 w1 w0 Hclean.
  - cbn [app length Z.of_nat].
    rewrite find_next_cons.
    replace ((byte_val w1 =? 0) && (byte_val w0 =? 0) && (byte_val x00 =? 1))
      with false by (symmetry; apply andb_false_r).
    rewrite find_next_cons.
    replace ((byte_val w0 =? 0) && (byte_val x00 =? 0) && (byte_val x00 =? 1))
      with false by (symmetry; apply andb_false_r).
    rewrite find_next_cons.
    change (byte_val x00) with 0. change (byte_val x01) with 1.
    change (0 =? 1) with false. rewrite andb_false_r.
    rewrite find_next_cons.
    change (byte_val x00) with 0. change (byte_val x01) with 1.
    change (0 =? 0) with true. change (1 =? 1) with true. cbn [andb].
    f_equal; [lia | f_equal; f_equal; lia].
  - cbn [app].
    rewrite find_next_cons.
    rewrite has_start_code_cons in Hclean.
    apply orb_false_elim in Hclean as [Hhere Hrest].
    rewrite Hhere.
    rewrite IH by exact Hrest.
    simpl length.
    f_equal; [lia | f_equal; f_equal; lia].
Qed.

(** The same payload followed by 00 00 01 and nothing more: the loop leaves
    by [break] as well, with [cur] at the end of what it was given. *)
Lemma find_next_marker_last (payload : list byte) :
  forall (cur nal_start : Z) (w3 w2 w1 w0 : byte),
    has_start_code (w1 :: w0 :: payload) = false ->
    exists s,
      find_next (payload ++ [x00; x00; x01]) cur (window w3 w2 w1 w0) nal_start
      = (cur + Z.of_nat (length payload) + 3, Some s).
Proof.
  induction payload as [| b payload IH];
    intros cur nal_start w3 w2 w1 w0 Hclean.
  - cbn [app length Z.of_nat].
    rewrite find_next_cons.
    replace ((byte_val w1 =? 0) && (byte_val w0 =? 0) && (byte_val x00 =? 1))
      with false by (symmetry; apply andb_false_r).
    rewrite find_next_cons.
    replace ((byte_val w0 =? 0) && (byte_val x00 =? 0) && (byte_val x00 =? 1))
      with false by (symmetry; apply andb_false_r).
    rewrite find_next_cons.
    change (byte_val x00) with 0. change (byte_val x01) with 1.
    change (0 =? 0) with true. change (1 =? 1) with true. cbn [andb].
    replace (cur + 1 + 1 + 1) with (cur + 0 + 3) by lia.
    destruct (byte_val w0 =? 0); eexists; reflexivity.
  - cbn [app].
    rewrite find_next_cons.
    rewrite has_start_code_cons in Hclean.
    apply orb_false_elim in Hclean as [Hhere Hrest].
    rewrite Hhere.
    destruct (IH (cur + 1) nal_start w2 w1 w0 b Hrest) as [s Hs].
    exists s. rewrite Hs. f_equal. cbn [length]. lia.
Qed.

(** The initial window holds no zero: a start code cannot begin in it. *)
Lemma has_start_code_fresh (payload : list byte) :
  has_start_code payload = false ->
  has_start_code (xff :: xff :: payload) = false.
Proof.
  intros Hclean.
  destruct payload as [| b0 payload']; [reflexivity |].
  rewrite has_start_code_cons. simpl (byte_val xff =? 0). simpl andb.
  destruct payload' as [| b1 payload'']; [reflexivity |].
  rewrite has_start_code_cons. simpl (byte_val xff =? 0). simpl andb.
  exact Hclean.
Qed.

(** What the loop guarantees in general: [cur] stays within the bytes it was
    given, a [break] needs three bytes read since [nal_start] (four when the
    window is 00 00 00 01), and the loop stops short of [end] only by
    [break]. *)
Lemma find_next_bounds (bytes : list byte) :
  forall (cur nal_start : Z) (w3 w2 w1 w0 : byte) (cur' : Z) (found : option Z),
    find_next bytes cur (window w3 w2 w1 w0) nal_start = (cur', found) ->
    0 <= cur - nal_start ->
    fresh (cur - nal_start) w3 w2 w1 w0 ->
    cur <= cur' <= cur + Z.of_nat (length bytes)
    /\ (found = None -> cur' = cur + Z.of_nat (length bytes))
    /\ (forall s, found = Some s -> 0 <= s <= cur' - 3 - nal_start).
Proof.
  induction bytes as [| b rest IH];
    intros cur nal_start w3 w2 w1 w0 cur' found Hrun Hpos Hfresh.
  - simpl in Hrun. injection Hrun as <- <-. simpl.
    split; [lia | split; [intros _; lia | intros s Hs; discriminate Hs]].
  - rewrite find_next_cons in Hrun.
    destruct Hfresh as (F3 & F2 & F1 & F0).
    simpl length.
    destruct ((byte_val w1 =? 0) && (byte_val w0 =? 0) && (byte_val b =? 1)) eqn:E.
    + apply andb_true_iff in E as [E E0].
      apply andb_true_iff in E as [E2 E1].
      assert (H2 : 2 <= cur - nal_start).
      { destruct (Z.lt_ge_cases (cur - nal_start) 2) as [Hlt | Hge]; [| exact Hge].
        rewrite (F1 Hlt) in E2. discriminate E2. }
      destruct (byte_val w2 =? 0) eqn:E3.
      * assert (H3 : 3 <= cur - nal_start).
        { destruct (Z.lt_ge_cases (cur - nal_start) 3) as [Hlt | Hge]; [| exact Hge].
          rewrite (F2 Hlt) in E3. discriminate E3. }
        injection Hrun as <- <-.
        split; [lia | split; [discriminate |]].
        intros s Hs. injection Hs as <-.
        pose proof (guint32_le (cur + 1 - 4 - nal_start)). lia.
      * injection Hrun as <- <-.
        split; [lia | split; [discriminate |]].
        intros s Hs. injection Hs as <-.
        pose proof (guint32_le (cur + 1 - 3 - nal_start)). lia.
    + apply IH in Hrun.
      * destruct Hrun as (Hc & Hnone & Hsome).
        split; [lia | split].
        -- intros Hf. specialize (Hnone Hf). lia.
        -- intros s Hs. apply Hsome in Hs. lia.
      * lia.
      * unfold fresh.
        split; [intros Hk; apply F2; lia |].
        split; [intros Hk; apply F1; lia |].
        split; [intros Hk; apply F0; lia |].
        intros Hk. lia.
Qed.

(** ** The scanner *)

Lemma locate_head_cases (buffer : list byte) (len : Z) :
  locate_head buffer len = 0 \/ locate_head buffer len = 3
  \/ (locate_head buffer len = 4 /\ 4 <= len).
Proof.
  unfold locate_head.
  destruct ((at_ buffer 0 =? 0) && (at_ buffer 1 =? 0)); [| left; reflexivity].
  destruct (at_ buffer 2 =? 1); [right; left; reflexivity |].
  destruct (at_ buffer 2 =? 0); [| left; reflexivity].
  destruct (4 <=? len) eqn:E4; [| left; reflexivity].
  destruct (at_ buffer 3 =? 1); [| left; reflexivity].
  right; right. split; [reflexivity | zbool; lia].
Qed.

Lemma fresh_initial : fresh 0 xff xff xff xff.
Proof. unfold fresh. repeat split; reflexivity. Qed.

Lemma length_skipn_Z (buffer : list byte) (n : Z) :
  0 <= n <= Z.of_nat (length buffer) ->
  Z.of_nat (length (skipn (Z.to_nat n) buffer)) = Z.of_nat (length buffer) - n.
Proof. intros Hn. rewrite length_skipn. lia. Qed.

(** The scanner for a region of three bytes or more, its loop named. *)
Lemma next_nal_long (asserts : bool) (buffer : list byte) :
  3 <= Z.of_nat (length buffer) ->
  _h265_byte_stream_next_nal asserts buffer
  = let len := Z.of_nat (length buffer) in
    let nal_start := locate_head buffer len in
    let '(cur, found) :=
      find_next (skipn (Z.to_nat nal_start) buffer) nal_start
        (window xff xff xff xff) nal_start in
    if len <=? cur then
      Returned ((if len <=? nal_start then None else Some nal_start),
                guint32 (len - nal_start))
    else Returned (Some nal_start, match found with Some s => s | None => 0 end).
Proof.
  intros Hlen. unfold _h265_byte_stream_next_nal, g_assert.
  replace (Z.of_nat (length buffer) =? 0) with false by (symmetry; zbool; lia).
  replace (Z.of_nat (length buffer) <? 3) with false by (symmetry; zbool; lia).
  rewrite andb_false_r. reflexivity.
Qed.

Lemma next_nal_short (asserts : bool) (buffer : list byte) :
  0 < Z.of_nat (length buffer) < 3 ->
  _h265_byte_stream_next_nal asserts buffer
  = Returned (Some 0, Z.of_nat (length buffer)).
Proof.
  intros Hlen. unfold _h265_byte_stream_next_nal, g_assert.
  replace (Z.of_nat (length buffer) =? 0) with false by (symmetry; zbool; lia).
  replace (Z.of_nat (length buffer) <? 3) with true by (symmetry; zbool; lia).
  rewrite andb_false_r. reflexivity.
Qed.

Lemma next_nal_empty (asserts : bool) :
  _h265_byte_stream_next_nal asserts []
  = if asserts then Aborted else Returned (None, 0).
Proof. destruct asserts; reflexivity. Qed.

(** Whatever the scanner returns as a unit lies inside the region: the offset
    of the unit and its size are not negative and end within [len]. *)
Lemma next_nal_bounds (asserts : bool) (buffer : list byte) (start size : Z) :
  _h265_byte_stream_next_nal asserts buffer = Returned (Some start, size) ->
  0 <= start /\ 0 <= size /\ start + size <= Z.of_nat (length buffer).
Proof.
  intros Hret.
  destruct (Z.lt_ge_cases (Z.of_nat (length buffer)) 3) as [Hshort | Hlong].
  - destruct buffer as [| b0 buffer'].
    + rewrite next_nal_empty in Hret. destruct asserts; discriminate Hret.
    + rewrite next_nal_short in Hret by (simpl length in *; lia).
      set (len := Z.of_nat (length (b0 :: buffer'))) in *.
      injection Hret as <- <-. lia.
  - rewrite next_nal_long in Hret by exact Hlong.
    cbv zeta in Hret.
    set (len := Z.of_nat (length buffer)) in *.
    set (nal_start := locate_head buffer len) in *.
    assert (Hhead : 0 <= nal_start <= len).
    { destruct (locate_head_cases buffer len) as [H | [H | [H H4]]];
        fold nal_start in H; lia. }
    destruct (find_next (skipn (Z.to_nat nal_start) buffer) nal_start
                (window xff xff xff xff) nal_start) as [cur found] eqn:Hrun.
    apply find_next_bounds in Hrun;
      [| lia | rewrite Z.sub_diag; exact fresh_initial].
    rewrite length_skipn_Z in Hrun by (fold len; lia). fold len in Hrun.
    destruct Hrun as (Hcur & Hnone & Hsome).
    destruct (len <=? cur) eqn:Eend.
    + destruct (len <=? nal_start) eqn:Eempty; [discriminate Hret |].
      injection Hret as <- <-. zbool.
      pose proof (guint32_le (len - nal_start)). lia.
    + zbool. injection Hret as <- Hsize.
      destruct found as [s |].
      * specialize (Hsome s eq_refl). lia.
      * specialize (Hnone eq_refl). lia.
Qed.

(** A payload behind a 4-byte start code, free of start codes, and either the
    last one or followed by another 4-byte start code and at least one more
    byte: the scanner returns the payload. *)
Lemma next_nal_unit (asserts : bool) (payload rest : list byte) :
  payload <> [] ->
  has_start_code payload = false ->
  rest = [] \/ (exists b rest', rest = x00 :: x00 :: x00 :: x01 :: b :: rest') ->
  Z.of_nat (length payload) < 2 ^ 32 ->
  _h265_byte_stream_next_nal asserts (x00 :: x00 :: x00 :: x01 :: payload ++ rest)
  = Returned (Some 4, Z.of_nat (length payload)).
Proof.
  intros Hne Hclean Hrest Hsize.
  pose proof (has_start_code_fresh payload Hclean) as Hclean'.
  assert (Hpos : 0 < Z.of_nat (length payload)).
  { destruct payload; [contradiction | simpl length; lia]. }
  rewrite next_nal_long by (simpl length; lia).
  cbv zeta.
  assert (Hhead : locate_head (x00 :: x00 :: x00 :: x01 :: payload ++ rest)
                    (Z.of_nat (length (x00 :: x00 :: x00 :: x01 :: payload ++ rest)))
                  = 4).
  { unfold locate_head, at_. cbn [nth].
    change (byte_val x00) with 0. change (byte_val x01) with 1.
    replace (4 <=? _) with true by (symmetry; zbool; simpl length; lia).
    reflexivity. }
  rewrite Hhead. change (Z.to_nat 4) with 4%nat. cbn [skipn].
  destruct Hrest as [-> | (b & rest' & ->)].
  - rewrite app_nil_r.
    rewrite find_next_clean by exact Hclean'.
    simpl length.
    replace (Z.of_nat (S (S (S (S (length payload))))) <=? 4 + Z.of_nat (length payload))
      with true by (symmetry; zbool; lia).
    replace (Z.of_nat (S (S (S (S (length payload))))) <=? 4)
      with false by (symmetry; zbool; lia).
    f_equal. f_equal.
    replace (Z.of_nat (S (S (S (S (length payload))))) - 4)
      with (Z.of_nat (length payload)) by lia.
    apply guint32_small. lia.
  - rewrite find_next_marker by exact Hclean'.
    simpl length. rewrite length_app. simpl length.
    replace (_ <=? 4 + Z.of_nat (length payload) + 4)
      with false by (symmetry; zbool; lia).
    f_equal. f_equal.
    replace (4 + Z.of_nat (length payload) - 4)
      with (Z.of_nat (length payload)) by lia.
    apply guint32_small. lia.
Qed.

(** The scanner on small buffers: a 4-byte and a 3-byte start code ahead of
    the last byte, and a buffer that begins in the middle of a unit. *)
Example scan_four_byte_marker :
  _h265_byte_stream_next_nal true two_unit_stream = Returned (Some 4, 2).
Proof. reflexivity. Qed.

Example scan_three_byte_marker :
  _h265_byte_stream_next_nal true [x00; x00; x00; x01; xaa; x00; x00; x01; xbb]
  = Returned (Some 4, 1).
Proof. reflexivity. Qed.

Example scan_mid_unit :
  _h265_byte_stream_next_nal true [xaa; xbb; xcc; x00; x00; x00; x01; xdd]
  = Returned (Some 0, 3).
Proof. reflexivity. Qed.

(** ** Stores into the buffer *)

Lemma length_store (data : list byte) :
  forall (i : nat) (b : byte) (data' : list byte),
    store data i b = Some data' -> length data' = length data.
Proof.
  induction data as [| b0 rest IH]; intros i b data' H.
  - discriminate H.
  - destruct i as [| i]; cbn [store] in H.
    + injection H as <-. reflexivity.
    + destruct (store rest i b) as [rest' |] eqn:E; [| discriminate H].
      injection H as <-. cbn [length]. rewrite (IH _ _ _ E). reflexivity.
Qed.

Lemma length_start_code_to_size (data : list byte) (nal_start_code nal_size : Z)
  (data' : list byte) :
  _start_code_to_size data nal_start_code nal_size = Some data' ->
  length data' = length data.
Proof.
  unfold _start_code_to_size. intros H.
  destruct (store data _ _) as [d1 |] eqn:E1; [| discriminate H].
  destruct (store d1 _ _) as [d2 |] eqn:E2; [| discriminate H].
  destruct (store d2 _ _) as [d3 |] eqn:E3; [| discriminate H].
  rewrite (length_store _ _ _ _ H), (length_store _ _ _ _ E3),
    (length_store _ _ _ _ E2), (length_store _ _ _ _ E1).
  reflexivity.
Qed.

(** A store is within the mapping exactly when its index is. *)
Lemma store_in_range (data : list byte) :
  forall (i : nat) (b : byte) (data' : list byte),
    store data i b = Some data' -> (i < length data)%nat.
Proof.
  induction data as [| b0 rest IH]; intros i b data' H.
  - discriminate H.
  - destruct i as [| i]; cbn [store length] in *; [lia |].
    destruct (store rest i b) as [rest' |] eqn:E; [| discriminate H].
    specialize (IH _ _ _ E). lia.
Qed.

(** The four stores of [_start_code_to_size] are within the mapping only if
    the four bytes from [nal_start_code] are. *)
Lemma start_code_to_size_in_range (data : list byte)
  (nal_start_code nal_size : Z) (data' : list byte) :
  0 <= nal_start_code ->
  _start_code_to_size data nal_start_code nal_size = Some data' ->
  nal_start_code + 4 <= Z.of_nat (length data).
Proof.
  unfold _start_code_to_size. intros Hpos H.
  destruct (store data _ _) as [d1 |] eqn:E1; [| discriminate H].
  destruct (store d1 _ _) as [d2 |] eqn:E2; [| discriminate H].
  destruct (store d2 _ _) as [d3 |] eqn:E3; [| discriminate H].
  apply store_in_range in H.
  rewrite (length_store _ _ _ _ E3), (length_store _ _ _ _ E2),
    (length_store _ _ _ _ E1) in H.
  lia.
Qed.

Lemma store_app_r (done : list byte) :
  forall (rest : list byte) (i : nat) (b : byte),
    store (done ++ rest) (length done + i) b
    = match store rest i b with
      | Some rest' => Some (done ++ rest')
      | None => None
      end.
Proof.
  induction done as [| b0 done IH]; intros rest i b.
  - cbn [app length Nat.add]. destruct (store rest i b); reflexivity.
  - cbn [app length Nat.add store]. rewrite IH.
    destruct (store rest i b); reflexivity.
Qed.

Lemma byte_of_shift (n k : Z) :
  0 <= k -> Z.land (Z.shiftr n k) 255 = n / 2 ^ k mod 256.
Proof.
  intros Hk. rewrite Z.shiftr_div_pow2 by exact Hk.
  replace 255 with (Z.ones 8) by reflexivity.
  rewrite Z.land_ones by lia. reflexivity.
Qed.

(** [_start_code_to_size] on four bytes in range replaces them by the
    big-endian form of [nal_size]. *)
Lemma start_code_to_size_app (done : list byte) (b0 b1 b2 b3 : byte)
  (rest : list byte) (nal_size : Z) :
  _start_code_to_size (done ++ b0 :: b1 :: b2 :: b3 :: rest)
    (Z.of_nat (length done)) nal_size
  = Some (done ++ be32 nal_size ++ rest).
Proof.
  unfold _start_code_to_size. rewrite Nat2Z.id.
  rewrite <- (Nat.add_0_r (length done)) at 1.
  rewrite store_app_r. cbn [store].
  rewrite store_app_r. cbn [store].
  rewrite store_app_r. cbn [store].
  rewrite store_app_r. cbn [store app].
  rewrite !byte_of_shift by lia.
  replace (Z.land nal_size 255) with (nal_size mod 256).
  - reflexivity.
  - replace 255 with (Z.ones 8) by reflexivity.
    rewrite Z.land_ones by lia. reflexivity.
Qed.

(** Four bytes within the mapping: the four stores are defined. *)
Lemma start_code_to_size_defined (data : list byte)
  (nal_start_code nal_size : Z) :
  (Z.to_nat nal_start_code + 4 <= length data)%nat ->
  _start_code_to_size data nal_start_code nal_size
  = Some (firstn (Z.to_nat nal_start_code) data
          ++ be32 nal_size
          ++ skipn (Z.to_nat nal_start_code + 4) data).
Proof.
  intros Hin.
  set (done := firstn (Z.to_nat nal_start_code) data).
  assert (Hdone : length done = Z.to_nat nal_start_code).
  { unfold done. rewrite length_firstn. lia. }
  assert (Hsplit : data = done ++ skipn (Z.to_nat nal_start_code) data)
    by (symmetry; apply firstn_skipn).
  destruct (skipn (Z.to_nat nal_start_code) data)
    as [| b0 [| b1 [| b2 [| b3 rest]]]] eqn:Eskip;
    try (apply (f_equal (@length byte)) in Eskip; rewrite length_skipn in Eskip;
         cbn [length] in Eskip; lia).
  assert (Hrest : skipn (Z.to_nat nal_start_code + 4) data = rest).
  { rewrite Nat.add_comm, <- skipn_skipn, Eskip. reflexivity. }
  rewrite Hrest. rewrite Hsplit at 1.
  pose proof (start_code_to_size_app done b0 b1 b2 b3 rest nal_size) as H.
  unfold _start_code_to_size in *.
  rewrite Nat2Z.id, Hdone in H. exact H.
Qed.

Lemma be32_value_be32 (n : Z) : 0 <= n < 2 ^ 32 -> be32_value (be32 n) = n.
Proof.
  intros Hn. unfold be32_value, be32. cbn [fold_left].
  rewrite !to_guint8_val by (apply Z.mod_pos_bound; lia).
  change (2 ^ 32) with 4294967296 in Hn.
  change (2 ^ 24) with 16777216. change (2 ^ 16) with 65536.
  change (2 ^ 8) with 256.
  replace (n / 65536) with (n / 256 / 256)
    by (rewrite Z.div_div by lia; reflexivity).
  replace (n / 16777216) with (n / 256 / 256 / 256)
    by (rewrite !Z.div_div by lia; reflexivity).
  assert (Htop : n / 256 / 256 / 256 / 256 = 0).
  { rewrite !Z.div_div by lia. apply Z.div_small. lia. }
  pose proof (Z.div_mod n 256 ltac:(lia)) as D0.
  pose proof (Z.div_mod (n / 256) 256 ltac:(lia)) as D1.
  pose proof (Z.div_mod (n / 256 / 256) 256 ltac:(lia)) as D2.
  pose proof (Z.div_mod (n / 256 / 256 / 256) 256 ltac:(lia)) as D3.
  rewrite Htop in D3.
  set (q1 := n / 256) in *. set (r0 := n mod 256) in *.
  set (q2 := q1 / 256) in *. set (r1 := q1 mod 256) in *.
  set (q3 := q2 / 256) in *. set (r2 := q2 mod 256) in *.
  set (r3 := q3 mod 256) in *.
  clearbody q1 r0 q2 r1 q3 r2 r3.
  lia.
Qed.

Lemma length_be32 (n : Z) : length (be32 n) = 4%nat.
Proof. reflexivity. Qed.

(** ** One round of the loop *)

Lemma length_region (data : list byte) (cursor : Z) :
  0 <= cursor <= Z.of_nat (length data) ->
  Z.of_nat (length (region data cursor))
  = guint32 (Z.of_nat (length data) - cursor).
Proof.
  intros Hc. unfold region.
  pose proof (guint32_le (Z.of_nat (length data) - cursor)).
  rewrite length_firstn, length_skipn. lia.
Qed.

Lemma region_whole (data : list byte) (cursor : Z) :
  0 <= cursor <= Z.of_nat (length data) ->
  Z.of_nat (length data) < 2 ^ 32 ->
  region data cursor = skipn (Z.to_nat cursor) data.
Proof.
  intros Hc Hsmall. unfold region.
  rewrite guint32_small by lia.
  apply firstn_all2. rewrite length_skipn. lia.
Qed.

(** A round that goes round again has moved [nal_start_code] forward by at
    least one byte, not past [frame_end], and left the size of the buffer as
    it was. *)
Lemma loop_body_progress (asserts : bool) (data : list byte) (cursor : Z)
  (data' : list byte) (cursor' : Z) :
  0 <= cursor ->
  loop_body asserts data cursor = Returned (Continue data' cursor') ->
  cursor < cursor' <= Z.of_nat (length data')
  /\ length data' = length data.
Proof.
  intros Hpos Hbody. unfold loop_body in Hbody.
  destruct (cursor <? Z.of_nat (length data)) eqn:Ein; [| discriminate Hbody].
  zbool.
  destruct (_h265_byte_stream_next_nal asserts (region data cursor))
    as [[[nal_body |] nal_size] | |] eqn:Escan; try discriminate Hbody.
  apply next_nal_bounds in Escan.
  rewrite length_region in Escan by lia.
  pose proof (guint32_le (Z.of_nat (length data) - cursor)).
  destruct (nal_size =? 0) eqn:Ezero; [discriminate Hbody |].
  zbool. unfold g_assert in Hbody.
  destruct (asserts && negb (nal_body =? 4)); [discriminate Hbody |].
  destruct (_start_code_to_size data cursor nal_size) as [written |] eqn:Ew;
    [| discriminate Hbody].
  injection Hbody as <- <-.
  rewrite (length_start_code_to_size _ _ _ _ Ew). split; lia.
Qed.

(** ** The loop *)

(** More fuel does not change a result. *)
Lemma convert_loop_more_fuel (asserts : bool) (fuel : nat) :
  forall (fuel' : nat) (data : list byte) (cursor : Z)
    (r : status (bool * list byte)),
    convert_loop asserts fuel data cursor = Some r ->
    (fuel <= fuel')%nat ->
    convert_loop asserts fuel' data cursor = Some r.
Proof.
  induction fuel as [| fuel IH]; intros fuel' data cursor r Hrun Hle.
  - discriminate Hrun.
  - destruct fuel' as [| fuel']; [lia |].
    cbn [convert_loop] in *.
    destruct (loop_body asserts data cursor) as [[data1 cursor1 | ok data1] | |];
      try exact Hrun.
    apply IH with (fuel' := fuel') in Hrun; [exact Hrun | lia].
Qed.

(** Fuel above the number of bytes left is enough for the loop to end. *)
Lemma convert_loop_ends (asserts : bool) (fuel : nat) :
  forall (data : list byte) (cursor : Z),
    0 <= cursor <= Z.of_nat (length data) ->
    Z.of_nat (length data) - cursor < Z.of_nat fuel ->
    exists r, convert_loop asserts fuel data cursor = Some r.
Proof.
  induction fuel as [| fuel IH]; intros data cursor Hpos Hfuel.
  - simpl in Hfuel. lia.
  - cbn [convert_loop].
    destruct (loop_body asserts data cursor) as [[data1 cursor1 | ok data1] | |]
      eqn:Ebody.
    + apply loop_body_progress in Ebody; [| lia].
      destruct Ebody as [Hadv Hlen].
      apply IH; lia.
    + eexists. reflexivity.
    + eexists. reflexivity.
    + eexists. reflexivity.
Qed.

(** ** The rewrite of a well-formed byte stream *)

Lemma skipn_length_app (done rest : list byte) :
  skipn (length done) (done ++ rest) = rest.
Proof.
  induction done as [| b done IH]; [reflexivity | exact IH].
Qed.

Lemma byte_stream_cons (payload : list byte) (payloads : list (list byte)) :
  byte_stream (payload :: payloads)
  = x00 :: x00 :: x00 :: x01 :: payload ++ byte_stream payloads.
Proof. reflexivity. Qed.

Lemma length_prefixed_cons (payload : list byte) (payloads : list (list byte)) :
  length_prefixed (payload :: payloads)
  = be32 (Z.of_nat (length payload)) ++ payload ++ length_prefixed payloads.
Proof.
  unfold length_prefixed. cbn [flat_map]. rewrite <- app_assoc. reflexivity.
Qed.

Lemma length_byte_stream (payloads : list (list byte)) :
  length (length_prefixed payloads) = length (byte_stream payloads).
Proof.
  induction payloads as [| payload payloads IH]; [reflexivity |].
  rewrite byte_stream_cons, length_prefixed_cons.
  rewrite !length_app, length_be32, IH. cbn [length].
  rewrite length_app. reflexivity.
Qed.

Lemma byte_stream_rounds (payloads : list (list byte)) :
  (length payloads <= length (byte_stream payloads))%nat.
Proof.
  induction payloads as [| payload payloads IH]; [apply Nat.le_refl |].
  rewrite byte_stream_cons. cbn [length]. rewrite length_app. lia.
Qed.

(** What follows a payload in a well-formed stream: nothing, or a start code
    and at least one byte. *)
Lemma byte_stream_head (payloads : list (list byte)) :
  Forall well_formed_payload payloads ->
  byte_stream payloads = []
  \/ exists b rest, byte_stream payloads = x00 :: x00 :: x00 :: x01 :: b :: rest.
Proof.
  intros Hwf. destruct payloads as [| payload payloads]; [left; reflexivity |].
  right. apply Forall_inv in Hwf. destruct Hwf as [Hne _].
  destruct payload as [| b payload]; [contradiction |].
  exists b, (payload ++ byte_stream payloads). reflexivity.
Qed.

(** The loop on a well-formed stream, from any unit boundary: [done] is the
    part of the buffer already rewritten. *)
Lemma convert_loop_well_formed (asserts : bool) (payloads : list (list byte)) :
  forall (done : list byte) (fuel : nat),
    Forall well_formed_payload payloads ->
    Z.of_nat (length (done ++ byte_stream payloads)) < 2 ^ 32 ->
    (length payloads < fuel)%nat ->
    convert_loop asserts fuel (done ++ byte_stream payloads)
      (Z.of_nat (length done))
    = Some (Returned (true, done ++ length_prefixed payloads)).
Proof.
  induction payloads as [| payload payloads IH]; intros done fuel Hwf Hsmall Hfuel.
  - destruct fuel as [| fuel]; [lia |].
    cbn [convert_loop]. unfold loop_body.
    replace (Z.of_nat (length done) <? Z.of_nat (length (done ++ byte_stream [])))
      with false
      by (symmetry; zbool; rewrite length_app; simpl length; lia).
    reflexivity.
  - destruct fuel as [| fuel]; [lia |].
    pose proof (Forall_inv Hwf) as [Hne Hclean].
    pose proof (Forall_inv_tail Hwf) as Hwf'.
    rewrite byte_stream_cons in *.
    assert (Hsmall' : Z.of_nat (length done) + 4 + Z.of_nat (length payload)
                      + Z.of_nat (length (byte_stream payloads)) < 2 ^ 32).
    { rewrite length_app in Hsmall. cbn [length] in Hsmall.
      rewrite length_app in Hsmall. lia. }
    assert (Hbody :
      loop_body asserts
        (done ++ x00 :: x00 :: x00 :: x01 :: payload ++ byte_stream payloads)
        (Z.of_nat (length done))
      = Returned (Continue
          ((done ++ be32 (Z.of_nat (length payload)) ++ payload)
           ++ byte_stream payloads)
          (Z.of_nat (length (done ++ be32 (Z.of_nat (length payload)) ++ payload))))).
    { unfold loop_body.
      replace (Z.of_nat (length done) <? _) with true
        by (symmetry; zbool; rewrite length_app; cbn [length]; lia).
      rewrite region_whole
        by (rewrite length_app; cbn [length]; rewrite length_app; lia).
      rewrite Nat2Z.id, skipn_length_app.
      rewrite next_nal_unit;
        [| exact Hne | exact Hclean | apply byte_stream_head; exact Hwf' | lia].
      replace (Z.of_nat (length payload) =? 0) with false.
      2:{ symmetry; zbool. destruct payload; [contradiction | cbn [length]; lia]. }
      unfold g_assert. change (4 =? 4) with true. rewrite andb_false_r.
      rewrite start_code_to_size_app.
      f_equal. f_equal.
      - rewrite <- !app_assoc. reflexivity.
      - rewrite !length_app, length_be32. lia. }
    cbn [convert_loop]. rewrite Hbody.
    rewrite IH.
    + f_equal. f_equal. f_equal.
      rewrite length_prefixed_cons, <- !app_assoc. reflexivity.
    + exact Hwf'.
    + rewrite !length_app, length_be32. lia.
    + cbn [length] in Hfuel. lia.
Qed.

(** ** Rounds reached from the start of the loop *)



(** A unit found less than four bytes ahead of the end of the buffer: with
    assertions the round stops at the assertion, without them
    [_start_code_to_size] stores outside the buffer. *)
Example store_outside_buffer :
  loop_body true [xaa] 0 = Aborted
  /\ loop_body false [xaa] 0 = OutOfBounds
  /\ _h265_convert_byte_stream_to_hvc false (writable_buffer [xaa])
     = Some OutOfBounds.
Proof. repeat split; reflexivity. Qed.


Lemma convert_loop_unique (asserts : bool) (fuel1 fuel2 : nat)
  (data : list byte) (cursor : Z) (r1 r2 : status (bool * list byte)) :
  convert_loop asserts fuel1 data cursor = Some r1 ->
  convert_loop asserts fuel2 data cursor = Some r2 ->
  r1 = r2.
Proof.
  intros H1 H2.
  apply convert_loop_more_fuel with (fuel' := Nat.max fuel1 fuel2) in H1;
    [| apply Nat.le_max_l].
  apply convert_loop_more_fuel with (fuel' := Nat.max fuel1 fuel2) in H2;
    [| apply Nat.le_max_r].
  congruence.
Qed.

(** The result of the loop from a reached round is the result of the loop
    from the start. *)
Lemma reaches_result (asserts : bool) (s s' : list byte * Z) :
  reaches asserts s s' ->
  forall (fuel' : nat) (r : status (bool * list byte)),
    convert_loop asserts fuel' (fst s') (snd s') = Some r ->
    exists fuel, convert_loop asserts fuel (fst s) (snd s) = Some r.
Proof.
  induction 1 as [s | data cursor data' cursor' s Hbody Hreach IH];
    intros fuel' r Hrun.
  - exists fuel'. exact Hrun.
  - destruct (IH fuel' r Hrun) as [fuel Hfuel].
    exists (S fuel). cbn [convert_loop fst snd] in *.
    rewrite Hbody. exact Hfuel.
Qed.

(** The whole function in terms of the loop. *)
Lemma convert_of_loop (asserts : bool) (data : list byte) (fuel : nat)
  (r : status (bool * list byte)) :
  convert_loop asserts fuel data 0 = Some r ->
  _h265_convert_byte_stream_to_hvc asserts (writable_buffer data)
  = Some match r with
         | Returned (ok, data') => Returned (ok, writable_buffer data')
         | Aborted => Aborted
         | OutOfBounds => OutOfBounds
         end.
Proof.
  intros Hrun.
  unfold _h265_convert_byte_stream_to_hvc. cbn [gst_buffer_map writable_buffer
    buffer_writable buffer_data].
  destruct (convert_loop_ends asserts (S (length data)) data 0) as [r' Hr'];
    [lia | lia |].
  rewrite Hr'.
  assert (r' = r) by (eapply convert_loop_unique; eassumption).
  subst r'. destruct r as [[ok data'] | |]; reflexivity.
Qed.

(** What leaving the loop in a reached round means for the whole call. *)
Lemma convert_of_reached (asserts : bool) (data data' : list byte) (cursor : Z)
  (r : status step) :
  reaches asserts (data, 0) (data', cursor) ->
  loop_body asserts data' cursor = r ->
  match r with
  | Returned (Leave ok data'') =>
      _h265_convert_byte_stream_to_hvc asserts (writable_buffer data)
      = Some (Returned (ok, writable_buffer data''))
  | Aborted =>
      _h265_convert_byte_stream_to_hvc asserts (writable_buffer data)
      = Some Aborted
  | OutOfBounds =>
      _h265_convert_byte_stream_to_hvc asserts (writable_buffer data)
      = Some OutOfBounds
  | Returned (Continue _ _) => True
  end.
Proof.
  intros Hreach Hbody.
  destruct r as [[data1 cursor1 | ok data1] | |]; [exact I | | |].
  - destruct (reaches_result asserts _ _ Hreach 1%nat (Returned (ok, data1)))
      as [fuel Hfuel].
    { cbn [convert_loop fst snd]. rewrite Hbody. reflexivity. }
    cbn [fst snd] in Hfuel.
    apply convert_of_loop in Hfuel. exact Hfuel.
  - destruct (reaches_result asserts _ _ Hreach 1%nat Aborted) as [fuel Hfuel].
    { cbn [convert_loop fst snd]. rewrite Hbody. reflexivity. }
    cbn [fst snd] in Hfuel.
    apply convert_of_loop in Hfuel. exact Hfuel.
  - destruct (reaches_result asserts _ _ Hreach 1%nat OutOfBounds)
      as [fuel Hfuel].
    { cbn [convert_loop fst snd]. rewrite Hbody. reflexivity. }
    cbn [fst snd] in Hfuel.
    apply convert_of_loop in Hfuel. exact Hfuel.
Qed.

(** ** The profile selector *)

Lemma fold_left_some {A B : Type} (f : A -> option B -> A) (values : list B) :
  forall a : A,
    fold_left (fun d v => f d (Some v)) values a = fold_left f (map Some values) a.
Proof.
  induction values as [| v values IH]; intros a; [reflexivity | apply IH].
Qed.

Section SelectorFacts.

Variable identify : string -> GstVaapiProfile.
Variable score : GstVaapiProfile -> N.


(** The update rule of [find_best_profile_value]. *)
Lemma find_best_profile_value_rule (data : FindBestProfileData)
  (value : option GValue) :
  find_best_profile_value identify score data value
  = match resolve identify value with
    | Some profile =>
        if (best_score data <=? score profile)%N
        then {| best_profile := profile; best_score := score profile |}
        else data
    | None => data
    end.
Proof.
  unfold find_best_profile_value, resolve.
  destruct value as [[[str |] | values |] |]; try reflexivity.
  destruct (identify str =? 0)%N; [reflexivity |].
  rewrite N.ltb_antisym.
  destruct (best_score data <=? score (identify str))%N; reflexivity.
Qed.

Lemma visit_structure_candidates (data : FindBestProfileData)
  (structure : GstStructure) :
  visit_structure identify score data structure
  = fold_left (find_best_profile_value identify score) (structure_candidates structure) data.
Proof.
  unfold visit_structure, structure_candidates.
  destruct (gst_structure_get_value structure "profile")
    as [[str | values |] |]; try reflexivity.
  apply fold_left_some.
Qed.

(** [find_best_profile] is the fold of [find_best_profile_value] over the
    candidates in the order of the calls. *)
Lemma find_best_profile_candidates (caps : GstCaps) :
  find_best_profile identify score caps
  = best_profile (fold_left (find_best_profile_value identify score) (candidates caps)
       {| best_profile := GST_VAAPI_PROFILE_UNKNOWN; best_score := 0%N |}).
Proof.
  unfold find_best_profile. f_equal.
  generalize {| best_profile := GST_VAAPI_PROFILE_UNKNOWN; best_score := 0%N |}
    as data.
  induction caps as [| structure caps IH]; intros data; [reflexivity |].
  unfold candidates in *. cbn [flat_map fold_left].
  rewrite fold_left_app, <- visit_structure_candidates. apply IH.
Qed.

(** Candidates that do not resolve leave the data as they are. *)
Lemma fold_unresolved (values : list (option GValue)) :
  forall data : FindBestProfileData,
    (forall v, In v values -> resolve identify v = None) ->
    fold_left (find_best_profile_value identify score) values data = data.
Proof.
  induction values as [| v values IH]; intros data Hnone; [reflexivity |].
  cbn [fold_left].
  rewrite find_best_profile_value_rule, (Hnone v (or_introl eq_refl)).
  apply IH. intros v' Hin. apply Hnone. right. exact Hin.
Qed.

(** Candidates of rank at most [bound] keep the best rank at most [bound]. *)
Lemma fold_bounded (values : list (option GValue)) (bound : N) :
  forall data : FindBestProfileData,
    (forall v q, In v values -> resolve identify v = Some q ->
                 (score q <= bound)%N) ->
    (best_score data <= bound)%N ->
    (best_score (fold_left (find_best_profile_value identify score) values data) <= bound)%N.
Proof.
  induction values as [| v values IH]; intros data Hle Hdata; [exact Hdata |].
  cbn [fold_left]. apply IH.
  - intros v' q Hin. apply Hle. right. exact Hin.
  - rewrite find_best_profile_value_rule.
    destruct (resolve identify v) as [q |] eqn:Eq; [| exact Hdata].
    destruct (best_score data <=? score q)%N; [| exact Hdata].
    cbn [best_score]. apply (Hle v q (or_introl eq_refl) Eq).
Qed.

(** Candidates of rank below the best rank leave the data as they are. *)
Lemma fold_below (values : list (option GValue)) :
  forall data : FindBestProfileData,
    (forall v q, In v values -> resolve identify v = Some q ->
                 (score q < best_score data)%N) ->
    fold_left (find_best_profile_value identify score) values data = data.
Proof.
  induction values as [| v values IH]; intros data Hlt; [reflexivity |].
  cbn [fold_left].
  assert (Hstep : find_best_profile_value identify score data v = data).
  { rewrite find_best_profile_value_rule.
    destruct (resolve identify v) as [q |] eqn:Eq; [| reflexivity].
    specialize (Hlt v q (or_introl eq_refl) Eq).
    destruct (best_score data <=? score q)%N eqn:Ele; [| reflexivity].
    apply N.leb_le in Ele. lia. }
  rewrite Hstep. apply IH.
  intros v' q Hin. apply Hlt. right. exact Hin.
Qed.

Lemma offers_no_profile_candidates (structure : GstStructure) :
  offers_no_profile identify structure ->
  forall v, In v (structure_candidates structure) -> resolve identify v = None.
Proof.
  unfold offers_no_profile, structure_candidates.
  destruct (gst_structure_get_value structure "profile")
    as [[str | values |] |]; intros Hno v Hin.
  - destruct Hin as [<- | []]. exact Hno.
  - apply in_map_iff in Hin as (v0 & <- & Hin0).
    rewrite Forall_forall in Hno. apply Hno. exact Hin0.
  - destruct Hin.
  - destruct Hin.
Qed.

End SelectorFacts.

(** * The claims *)

(** ** The scanner *)

Lemma byte_val_zero (b : byte) : byte_val b = 0 -> b = x00.
Proof.
  intros H. unfold byte_val in H.
  assert (Hn : Byte.to_N b = 0%N) by lia.
  pose proof (Byte.of_to_N b) as Hb. rewrite Hn in Hb.
  injection Hb as <-. reflexivity.
Qed.

Lemma byte_val_one (b : byte) : byte_val b = 1 -> b = x01.
Proof.
  intros H. unfold byte_val in H.
  assert (Hn : Byte.to_N b = 1%N) by lia.
  pose proof (Byte.of_to_N b) as Hb. rewrite Hn in Hb.
  injection Hb as <-. reflexivity.
Qed.

(** C3, where the code departs from it.  A unit behind a 4-byte start code is
    followed by the start code 00 00 01, whose last byte is the last byte of
    the buffer.  The loop leaves by [break] at that byte, having stored the
    distance to the start code in [*nal_size]; the test [cur >= end] that
    follows the loop holds as well, since [cur == end], and stores
    [end - nal_start] over it.  The scanner reports a unit that reaches to the
    end of the buffer, the 3 bytes of the start code included, not the unit
    that ends just before the start code. *)
Theorem next_nal_start_code_at_end (asserts : bool) (payload : list byte) :
  has_start_code payload = false ->
  Z.of_nat (length payload) + 7 < 2 ^ 32 ->
  (exists s,
     find_next (payload ++ [x00; x00; x01]) 4 4294967295 4
     = (Z.of_nat (length payload) + 7, Some s))
  /\ _h265_byte_stream_next_nal asserts
       (x00 :: x00 :: x00 :: x01 :: payload ++ [x00; x00; x01])
     = Returned (Some 4, Z.of_nat (length payload) + 3).
Proof.
  intros Hclean Hsmall.
  pose proof (has_start_code_fresh payload Hclean) as Hclean'.
  destruct (find_next_marker_last payload 4 4 xff xff xff xff Hclean')
    as [s Hs].
  change (window xff xff xff xff) with 4294967295 in Hs.
  replace (4 + Z.of_nat (length payload) + 3)
    with (Z.of_nat (length payload) + 7) in Hs by lia.
  split; [exists s; exact Hs |].
  rewrite next_nal_long by (cbn [length]; lia).
  cbv zeta.
  assert (Hlen : Z.of_nat (length (x00 :: x00 :: x00 :: x01
                                     :: payload ++ [x00; x00; x01]))
                 = Z.of_nat (length payload) + 7).
  { cbn [length]. rewrite length_app. cbn [length]. lia. }
  rewrite Hlen.
  assert (Hhead : locate_head (x00 :: x00 :: x00 :: x01
                                 :: payload ++ [x00; x00; x01])
                    (Z.of_nat (length payload) + 7) = 4).
  { unfold locate_head, at_. cbn [nth].
    change (byte_val x00) with 0. change (byte_val x01) with 1.
    replace (4 <=? _) with true by (symmetry; zbool; lia).
    reflexivity. }
  rewrite Hhead. change (Z.to_nat 4) with 4%nat. cbn [skipn].
  change (window xff xff xff xff) with 4294967295. rewrite Hs.
  rewrite Z.leb_refl.
  replace (Z.of_nat (length payload) + 7 <=? 4) with false
    by (symmetry; zbool; lia).
  f_equal. f_equal.
  replace (Z.of_nat (length payload) + 7 - 4)
    with (Z.of_nat (length payload) + 3) by lia.
  apply guint32_small. lia.
Qed.

Lemma trailing_start_code_is_counted :
  has_start_code [xaa] = false
  /\ Z.of_nat (length [xaa]) + 7 < 2 ^ 32
  /\ find_next [xaa; x00; x00; x01] 4 4294967295 4 = (8, Some 1)
  /\ _h265_byte_stream_next_nal true trailing_start_code_stream
     = Returned (Some 4, 4).
Proof.
  assert (Hclean : has_start_code [xaa] = false) by reflexivity.
  assert (Hsmall : Z.of_nat (length [xaa]) + 7 < 2 ^ 32) by reflexivity.
  split; [exact Hclean | split; [exact Hsmall | split; [reflexivity |]]].
  exact (proj2 (next_nal_start_code_at_end true [xaa] Hclean Hsmall)).
Defined.

(** C6, amended.  For a buffer of length 1 or 2 the scanner returns the whole
    buffer as one unit: the unit starts at the base of the buffer (offset 0,
    no start code is skipped) and its size is the length of the buffer.  For
    a buffer of length 0 it returns no unit: the assertion [len != 0] at its
    entry stops the program when assertions are compiled in, and without them
    it returns [NULL] with a size of 0. *)
Theorem next_nal_short_buffer (asserts : bool) (buffer : list byte) :
  (length buffer < 3)%nat ->
  _h265_byte_stream_next_nal asserts buffer
  = match buffer with
    | [] => if asserts then Aborted else Returned (None, 0)
    | _ :: _ => Returned (Some 0, Z.of_nat (length buffer))
    end.
Proof.
  intros Hlen. destruct buffer as [| b buffer].
  - apply next_nal_empty.
  - apply next_nal_short. cbn [length] in *. lia.
Qed.

Lemma two_byte_buffer_is_one_unit :
  (length [xaa; xbb] < 3)%nat
  /\ _h265_byte_stream_next_nal true [xaa; xbb] = Returned (Some 0, 2).
Proof.
  split.
  - cbn [length]. lia.
  - apply (next_nal_short_buffer true [xaa; xbb]). cbn [length]. lia.
Defined.

(** C6 as stated fails for the buffer of length 0: the scanner does not
    return a unit that starts at the base of the buffer. *)
Lemma next_nal_empty_buffer :
  _h265_byte_stream_next_nal true [] = Aborted
  /\ _h265_byte_stream_next_nal false [] = Returned (None, 0)
  /\ ~ (forall (asserts : bool) (buffer : list byte),
          (length buffer < 3)%nat ->
          _h265_byte_stream_next_nal asserts buffer
          = Returned (Some 0, Z.of_nat (length buffer))).
Proof.
  split; [reflexivity | split; [reflexivity |]].
  intros Hclaim. specialize (Hclaim true [] ltac:(cbn [length]; lia)).
  discriminate Hclaim.
Qed.

(** C7.  When the start code recognized at the head of the buffer takes up
    the whole buffer, which means that the buffer is exactly 00 00 01 or
    exactly 00 00 00 01, the scanner reports that there is no unit ([NULL]),
    not a unit of size zero: [nal_start] is at the end of the buffer. *)
Theorem next_nal_only_start_code (asserts : bool) (buffer : list byte) :
  0 < Z.of_nat (length buffer) ->
  locate_head buffer (Z.of_nat (length buffer)) = Z.of_nat (length buffer) ->
  (buffer = [x00; x00; x01] \/ buffer = [x00; x00; x00; x01])
  /\ _h265_byte_stream_next_nal asserts buffer = Returned (None, 0).
Proof.
  intros Hpos Hhead.
  assert (Hshape : buffer = [x00; x00; x01] \/ buffer = [x00; x00; x00; x01]).
  { destruct (locate_head_cases buffer (Z.of_nat (length buffer)))
      as [H0 | [H3 | [H4 _]]].
    - lia.
    - rewrite Hhead in H3.
      destruct buffer as [| b0 [| b1 [| b2 [| b3 rest]]]];
        cbn [length] in H3; try lia.
      left. revert Hhead. unfold locate_head, at_. cbn [nth].
      change (Z.of_nat (length [b0; b1; b2])) with 3.
      destruct (byte_val b0 =? 0) eqn:E0; [| discriminate].
      destruct (byte_val b1 =? 0) eqn:E1; [| discriminate].
      cbn [andb].
      destruct (byte_val b2 =? 1) eqn:E2.
      + intros _. zbool.
        rewrite (byte_val_zero b0 E0), (byte_val_zero b1 E1),
          (byte_val_one b2 E2). reflexivity.
      + change (4 <=? 3) with false. rewrite andb_false_r.
        destruct (byte_val b2 =? 0); discriminate.
    - rewrite Hhead in H4.
      destruct buffer as [| b0 [| b1 [| b2 [| b3 [| b4 rest]]]]];
        cbn [length] in H4; try lia.
      right. revert Hhead. unfold locate_head, at_. cbn [nth].
      change (Z.of_nat (length [b0; b1; b2; b3])) with 4.
      destruct (byte_val b0 =? 0) eqn:E0; [| discriminate].
      destruct (byte_val b1 =? 0) eqn:E1; [| discriminate].
      cbn [andb].
      destruct (byte_val b2 =? 1) eqn:E2; [discriminate |].
      destruct (byte_val b2 =? 0) eqn:E2'; [| discriminate].
      destruct (byte_val b3 =? 1) eqn:E3; [| discriminate].
      intros _. zbool.
      rewrite (byte_val_zero b0 E0), (byte_val_zero b1 E1),
        (byte_val_zero b2 E2'), (byte_val_one b3 E3). reflexivity. }
  split; [exact Hshape |].
  destruct Hshape as [-> | ->]; destruct asserts; reflexivity.
Qed.

Lemma three_byte_start_code_no_unit :
  0 < Z.of_nat (length [x00; x00; x01])
  /\ locate_head [x00; x00; x01] (Z.of_nat (length [x00; x00; x01]))
     = Z.of_nat (length [x00; x00; x01])
  /\ _h265_byte_stream_next_nal true [x00; x00; x01] = Returned (None, 0).
Proof.
  split; [reflexivity | split; [reflexivity |]].
  apply (next_nal_only_start_code true [x00; x00; x01]); reflexivity.
Defined.

(** C9.  A unit that the scanner returns for a buffer at address [base] and
    of length [len] lies within the buffer: it starts at [base] or after it,
    its size is at most [len], and it ends at [base + len] or before it. *)
Theorem next_nal_within_buffer (asserts : bool) (buffer : list byte)
  (base nal_start nal_size : Z) :
  _h265_byte_stream_next_nal asserts buffer = Returned (Some nal_start, nal_size) ->
  let len := Z.of_nat (length buffer) in
  let unit_start := base + nal_start in
  base <= unit_start
  /\ 0 <= nal_size <= len
  /\ unit_start + nal_size <= base + len.
Proof.
  intros Hret. apply next_nal_bounds in Hret. cbv zeta. lia.
Qed.

Lemma first_unit_of_two_within :
  _h265_byte_stream_next_nal true two_unit_stream = Returned (Some 4, 2)
  /\ 1000 <= 1000 + 4
  /\ 0 <= 2 <= 11
  /\ 1000 + 4 + 2 <= 1000 + 11.
Proof.
  assert (H : _h265_byte_stream_next_nal true two_unit_stream
              = Returned (Some 4, 2)) by reflexivity.
  split; [exact H |].
  exact (next_nal_within_buffer true two_unit_stream 1000 4 2 H).
Defined.

(** ** The rewrite *)

(** C1.  A well-formed byte stream is a sequence of NAL payloads, each not
    empty and free of start codes, each behind the 4-byte start code
    00 00 00 01, the whole being of a length that a [guint32] holds.  On a
    writable buffer with such a stream the rewrite returns [TRUE]; the buffer
    it leaves has the same length, holds in place of each start code the size
    of the payload behind it as four bytes, most significant first, and holds
    the payloads unchanged and in their order. *)
Theorem convert_well_formed_stream (asserts : bool)
  (payloads : list (list byte)) :
  Forall well_formed_payload payloads ->
  Z.of_nat (length (byte_stream payloads)) < 2 ^ 32 ->
  _h265_convert_byte_stream_to_hvc asserts (writable_buffer (byte_stream payloads))
  = Some (Returned (true, writable_buffer (length_prefixed payloads)))
  /\ length (length_prefixed payloads) = length (byte_stream payloads)
  /\ Forall (fun payload =>
               be32_value (be32 (Z.of_nat (length payload)))
               = Z.of_nat (length payload)) payloads.
Proof.
  intros Hwf Hsmall. split; [| split].
  - apply (convert_of_loop asserts (byte_stream payloads)
             (S (length (byte_stream payloads)))
             (Returned (true, length_prefixed payloads))).
    apply (convert_loop_well_formed asserts payloads []).
    + exact Hwf.
    + exact Hsmall.
    + pose proof (byte_stream_rounds payloads). lia.
  - apply length_byte_stream.
  - apply Forall_forall. intros payload Hin.
    apply be32_value_be32. split; [lia |].
    assert (Hle : (length payload <= length (byte_stream payloads))%nat).
    { clear Hwf Hsmall. induction payloads as [| p payloads IH]; [destruct Hin |].
      rewrite byte_stream_cons. cbn [length]. rewrite length_app.
      destruct Hin as [-> | Hin]; [lia | specialize (IH Hin); lia]. }
    lia.
Qed.

Lemma convert_two_unit_stream :
  Forall well_formed_payload [[xaa; xbb]; [xcc]]
  /\ Z.of_nat (length (byte_stream [[xaa; xbb]; [xcc]])) < 2 ^ 32
  /\ _h265_convert_byte_stream_to_hvc true
       (writable_buffer [x00; x00; x00; x01; xaa; xbb; x00; x00; x00; x01; xcc])
     = Some (Returned (true,
         writable_buffer [x00; x00; x00; x02; xaa; xbb; x00; x00; x00; x01; xcc])).
Proof.
  assert (Hwf : Forall well_formed_payload [[xaa; xbb]; [xcc]]).
  { repeat constructor; discriminate. }
  assert (Hsmall : Z.of_nat (length (byte_stream [[xaa; xbb]; [xcc]])) < 2 ^ 32).
  { reflexivity. }
  split; [exact Hwf | split; [exact Hsmall |]].
  exact (proj1 (convert_well_formed_stream true [[xaa; xbb]; [xcc]] Hwf Hsmall)).
Defined.

(** C4, amended.  Assertions being compiled in, when the rewrite comes to a
    unit whose payload does not begin exactly 4 bytes after the cursor it does
    not report success: it returns [FALSE] if the size of that unit is zero,
    and otherwise it stops at the failed assertion
    [nal_body - nal_start_code == 4], which ends the program; no value is
    returned.  For 00 00 01 AA 00 00 00 01 BB CC DD it is the assertion. *)
Theorem convert_misaligned_unit (data data' : list byte)
  (cursor nal_body nal_size : Z) :
  reaches true (data, 0) (data', cursor) ->
  cursor < Z.of_nat (length data') ->
  _h265_byte_stream_next_nal true (region data' cursor)
  = Returned (Some nal_body, nal_size) ->
  nal_body <> 4 ->
  _h265_convert_byte_stream_to_hvc true (writable_buffer data)
  = Some (if nal_size =? 0 then Returned (false, writable_buffer data')
          else Aborted).
Proof.
  intros Hreach Hin Hscan Hoff.
  pose proof (convert_of_reached true data data' cursor _ Hreach eq_refl) as H.
  unfold loop_body in H.
  replace (cursor <? Z.of_nat (length data')) with true in H
    by (symmetry; zbool; lia).
  rewrite Hscan in H.
  destruct (nal_size =? 0); [exact H |].
  unfold g_assert in H.
  replace (nal_body =? 4) with false in H by (symmetry; zbool; lia).
  exact H.
Qed.

Lemma mixed_stream_aborts :
  reaches true (mixed_stream, 0) (mixed_stream, 0)
  /\ 0 < Z.of_nat (length mixed_stream)
  /\ _h265_byte_stream_next_nal true (region mixed_stream 0) = Returned (Some 3, 1)
  /\ 3 <> 4
  /\ _h265_convert_byte_stream_to_hvc true (writable_buffer mixed_stream)
     = Some Aborted.
Proof.
  assert (Hreach : reaches true (mixed_stream, 0) (mixed_stream, 0))
    by apply reaches_here.
  assert (Hin : 0 < Z.of_nat (length mixed_stream)) by reflexivity.
  assert (Hscan : _h265_byte_stream_next_nal true (region mixed_stream 0)
                  = Returned (Some 3, 1)) by reflexivity.
  assert (Hoff : 3 <> 4) by discriminate.
  repeat (split; [assumption |]).
  exact (convert_misaligned_unit mixed_stream mixed_stream 0 3 1
           Hreach Hin Hscan Hoff).
Defined.

(** C4 as stated fails for 00 00 01 AA 00 00 00 01 BB CC DD: the first unit
    has its payload 3 bytes after the cursor, and the rewrite does not return
    [FALSE].  With assertions it stops at the assertion; without them nothing
    checks the offset, the four bytes at the cursor are overwritten (the first
    payload byte among them) and the rewrite returns [TRUE]. *)
Lemma convert_mixed_start_codes :
  _h265_byte_stream_next_nal true (region mixed_stream 0) = Returned (Some 3, 1)
  /\ _h265_convert_byte_stream_to_hvc true (writable_buffer mixed_stream)
     = Some Aborted
  /\ _h265_convert_byte_stream_to_hvc false (writable_buffer mixed_stream)
     = Some (Returned (true,
         writable_buffer [x00; x00; x00; x01; x00; x00; x00; x03; xbb; xcc; xdd]))
  /\ ~ (exists (asserts : bool) (buf : GstBuffer),
          _h265_convert_byte_stream_to_hvc asserts (writable_buffer mixed_stream)
          = Some (Returned (false, buf))).
Proof.
  split; [reflexivity | split; [reflexivity | split; [reflexivity |]]].
  intros (asserts & buf & H). destruct asserts; discriminate H.
Qed.

(** C5.  When the rewrite comes to a round in which the scanner returns a
    unit of size zero, it returns [FALSE] at once: the buffer is left as that
    round found it, and the call does not report success. *)
Theorem convert_zero_size_unit (asserts : bool) (data data' : list byte)
  (cursor nal_body : Z) :
  reaches asserts (data, 0) (data', cursor) ->
  cursor < Z.of_nat (length data') ->
  _h265_byte_stream_next_nal asserts (region data' cursor)
  = Returned (Some nal_body, 0) ->
  _h265_convert_byte_stream_to_hvc asserts (writable_buffer data)
  = Some (Returned (false, writable_buffer data')).
Proof.
  intros Hreach Hin Hscan.
  pose proof (convert_of_reached asserts data data' cursor _ Hreach eq_refl) as H.
  unfold loop_body in H.
  replace (cursor <? Z.of_nat (length data')) with true in H
    by (symmetry; zbool; lia).
  rewrite Hscan in H. exact H.
Qed.

Lemma empty_unit_stream_fails :
  reaches true (empty_unit_stream, 0) (empty_unit_stream, 5)
  /\ 5 < Z.of_nat (length empty_unit_stream)
  /\ _h265_byte_stream_next_nal true (region empty_unit_stream 5)
     = Returned (Some 4, 0)
  /\ _h265_convert_byte_stream_to_hvc true (writable_buffer empty_unit_stream)
     = Some (Returned (false, writable_buffer empty_unit_stream)).
Proof.
  assert (Hreach : reaches true (empty_unit_stream, 0) (empty_unit_stream, 5)).
  { apply reaches_round with (data' := empty_unit_stream) (cursor' := 5).
    - reflexivity.
    - apply reaches_here. }
  assert (Hin : 5 < Z.of_nat (length empty_unit_stream)) by reflexivity.
  assert (Hscan : _h265_byte_stream_next_nal true (region empty_unit_stream 5)
                  = Returned (Some 4, 0)) by reflexivity.
  repeat (split; [assumption |]).
  exact (convert_zero_size_unit true empty_unit_stream empty_unit_stream 5 4
           Hreach Hin Hscan).
Defined.


(** ** The profile selector *)

(** C2, amended.  [find_best_profile_value] replaces the running best
    (profile, rank) pair when the candidate resolves and its rank is not
    below the current best rank, so that among candidates of equal rank the
    one seen later is kept: [find_best_profile] returns the last candidate of
    the highest rank.  For candidates of ranks 5, 5 and 3 it is the second
    one of rank 5. *)
Theorem profile_selector_last_seen_wins (identify : string -> GstVaapiProfile)
  (score : GstVaapiProfile -> N) :
  (forall (data : FindBestProfileData) (value : option GValue),
     find_best_profile_value identify score data value
     = match resolve identify value with
       | Some profile =>
           if (best_score data <=? score profile)%N
           then {| best_profile := profile; best_score := score profile |}
           else data
       | None => data
       end)
  /\ (forall (caps : GstCaps) (before after : list (option GValue))
        (value : option GValue) (profile : GstVaapiProfile),
        candidates caps = before ++ value :: after ->
        resolve identify value = Some profile ->
        (forall v q, In v before -> resolve identify v = Some q ->
                     (score q <= score profile)%N) ->
        (forall v q, In v after -> resolve identify v = Some q ->
                     (score q < score profile)%N) ->
        find_best_profile identify score caps = profile).
Proof.
  split; [apply find_best_profile_value_rule |].
  intros caps before after value profile Hcands Hvalue Hbefore Hafter.
  rewrite find_best_profile_candidates, Hcands, fold_left_app.
  cbn [fold_left].
  set (data := fold_left (find_best_profile_value identify score) before _).
  assert (Hdata : (best_score data <= score profile)%N).
  { apply fold_bounded; [exact Hbefore | apply N.le_0_l]. }
  rewrite (find_best_profile_value_rule identify score data value), Hvalue.
  apply N.leb_le in Hdata. rewrite Hdata.
  rewrite fold_below; [reflexivity | exact Hafter].
Qed.

Lemma profile_selector_equal_ranks :
  candidates demo_caps
  = [Some (GString (Some "main"%string))]
    ++ Some (GString (Some "main-10"%string))
       :: [Some (GString (Some "main-444"%string))]
  /\ resolve demo_identify (Some (GString (Some "main-10"%string))) = Some 2%N
  /\ find_best_profile demo_identify demo_score demo_caps = 2%N.
Proof.
  assert (Hcands : candidates demo_caps
                   = [Some (GString (Some "main"%string))]
                     ++ Some (GString (Some "main-10"%string))
                        :: [Some (GString (Some "main-444"%string))])
    by reflexivity.
  assert (Hvalue : resolve demo_identify (Some (GString (Some "main-10"%string)))
                   = Some 2%N) by reflexivity.
  split; [exact Hcands | split; [exact Hvalue |]].
  apply (proj2 (profile_selector_last_seen_wins demo_identify demo_score)
           demo_caps _ _ _ 2%N Hcands Hvalue).
  - intros v q [<- | []] Hq. injection Hq as <-. vm_compute. discriminate.
  - intros v q [<- | []] Hq. injection Hq as <-. reflexivity.
Defined.

(** C2 as stated fails: the candidates of [demo_caps] have the ranks 5, 5 and
    3, the first of them is profile 1, and the selector returns profile 2, the
    second of rank 5; the running best (1, 5) is replaced by a candidate whose
    rank, 5, is not greater. *)
Lemma first_seen_does_not_win :
  map (fun v => option_map demo_score (resolve demo_identify v))
      (candidates demo_caps)
  = [Some 5%N; Some 5%N; Some 3%N]
  /\ map (resolve demo_identify) (candidates demo_caps)
     = [Some 1%N; Some 2%N; Some 3%N]
  /\ find_best_profile demo_identify demo_score demo_caps = 2%N
  /\ find_best_profile_value demo_identify demo_score
       {| best_profile := 1%N; best_score := 5%N |}
       (Some (GString (Some "main-10"%string)))
     = {| best_profile := 2%N; best_score := 5%N |}
  /\ ~ (forall (identify : string -> GstVaapiProfile)
          (score : GstVaapiProfile -> N) (data : FindBestProfileData)
          (value : option GValue),
          find_best_profile_value identify score data value <> data ->
          exists profile,
            resolve identify value = Some profile
            /\ (best_score data < score profile)%N).
Proof.
  repeat (split; [reflexivity |]).
  intros Hclaim.
  destruct (Hclaim demo_identify demo_score
              {| best_profile := 1%N; best_score := 5%N |}
              (Some (GString (Some "main-10"%string))))
    as (profile & Hres & Hlt).
  - discriminate.
  - injection Hres as <-. vm_compute in Hlt. discriminate Hlt.
Qed.

(** C8.  The selector yields a profile for every input, and it is
    [GST_VAAPI_PROFILE_UNKNOWN] whenever no structure offers a profile that
    [identify] knows: the caps are empty, or every structure is without a
    "profile" field or has one whose strings are all unknown.  A value that
    does not resolve leaves the running best as it is, so that the result is
    the one the resolving candidates alone give. *)
Theorem find_best_profile_unknown (identify : string -> GstVaapiProfile)
  (score : GstVaapiProfile -> N) :
  (forall caps : GstCaps,
     Forall (offers_no_profile identify) caps ->
     find_best_profile identify score caps = GST_VAAPI_PROFILE_UNKNOWN)
  /\ (forall (data : FindBestProfileData) (value : option GValue),
        resolve identify value = None ->
        find_best_profile_value identify score data value = data)
  /\ (forall caps : GstCaps,
        find_best_profile identify score caps
        = best_profile
            (fold_left (find_best_profile_value identify score)
               (filter (fun v => match resolve identify v with
                                 | Some _ => true
                                 | None => false
                                 end) (candidates caps))
               {| best_profile := GST_VAAPI_PROFILE_UNKNOWN;
                  best_score := 0%N |})).
Proof.
  split; [| split].
  - intros caps Hno.
    rewrite find_best_profile_candidates, fold_unresolved; [reflexivity |].
    intros v Hin. unfold candidates in Hin.
    apply in_flat_map in Hin as (structure & Hstruct & Hin).
    rewrite Forall_forall in Hno.
    apply (offers_no_profile_candidates identify structure (Hno _ Hstruct) v Hin).
  - intros data value Hnone.
    rewrite find_best_profile_value_rule, Hnone. reflexivity.
  - intros caps. rewrite find_best_profile_candidates. f_equal.
    generalize {| best_profile := GST_VAAPI_PROFILE_UNKNOWN; best_score := 0%N |}
      as data.
    induction (candidates caps) as [| v values IH]; intros data; [reflexivity |].
    cbn [fold_left filter].
    destruct (resolve identify v) as [profile |] eqn:Ev.
    + cbn [fold_left]. apply IH.
    + rewrite (find_best_profile_value_rule identify score data v), Ev.
      apply IH.
Qed.

Lemma unknown_strings_select_nothing :
  Forall (offers_no_profile demo_identify) demo_unknown_caps
  /\ Forall (offers_no_profile demo_identify) []
  /\ find_best_profile demo_identify demo_score demo_unknown_caps
     = GST_VAAPI_PROFILE_UNKNOWN
  /\ find_best_profile demo_identify demo_score []
     = GST_VAAPI_PROFILE_UNKNOWN.
Proof.
  assert (Hno : Forall (offers_no_profile demo_identify) demo_unknown_caps).
  { repeat constructor. }
  assert (Hempty : Forall (offers_no_profile demo_identify) [])
    by constructor.
  split; [exact Hno | split; [exact Hempty | split]].
  - exact (proj1 (find_best_profile_unknown demo_identify demo_score)
             demo_unknown_caps Hno).
  - exact (proj1 (find_best_profile_unknown demo_identify demo_score) [] Hempty).
Defined.

(** * Further properties *)

(** ** The scanner *)

(** The scanner stores nothing into the buffer. *)
Lemma next_nal_in_bounds (asserts : bool) (buffer : list byte) :
  _h265_byte_stream_next_nal asserts buffer <> OutOfBounds.
Proof.
  unfold _h265_byte_stream_next_nal, g_assert.
  destruct (asserts && _); [discriminate |].
  destruct (Z.of_nat (length buffer) <? 3); [discriminate |].
  destruct (find_next _ _ _ _) as [cur found].
  destruct (_ <=? cur); discriminate.
Qed.

Lemma locate_head_three (buffer : list byte) :
  3 <= Z.of_nat (length buffer) ->
  locate_head buffer (Z.of_nat (length buffer)) = 3 ->
  exists rest, buffer = x00 :: x00 :: x01 :: rest.
Proof.
  intros Hlen. unfold locate_head, at_.
  destruct buffer as [| b0 [| b1 [| b2 rest]]]; cbn [length] in Hlen; try lia.
  cbn [nth].
  destruct (byte_val b0 =? 0) eqn:E0; [| discriminate].
  destruct (byte_val b1 =? 0) eqn:E1; [| discriminate].
  cbn [andb].
  destruct (byte_val b2 =? 1) eqn:E2.
  - intros _. zbool.
    rewrite (byte_val_zero b0 E0), (byte_val_zero b1 E1), (byte_val_one b2 E2).
    exists rest. reflexivity.
  - destruct ((byte_val b2 =? 0) && _ && _); discriminate.
Qed.

Lemma locate_head_four (buffer : list byte) :
  locate_head buffer (Z.of_nat (length buffer)) = 4 ->
  exists rest, buffer = x00 :: x00 :: x00 :: x01 :: rest.
Proof.
  intros Hhead.
  destruct (locate_head_cases buffer (Z.of_nat (length buffer)))
    as [H0 | [H3 | [_ Hlen]]]; try lia.
  revert Hhead. unfold locate_head, at_.
  destruct buffer as [| b0 [| b1 [| b2 [| b3 rest]]]];
    cbn [length] in Hlen; try lia.
  cbn [nth].
  destruct (byte_val b0 =? 0) eqn:E0; [| discriminate].
  destruct (byte_val b1 =? 0) eqn:E1; [| discriminate].
  cbn [andb].
  destruct (byte_val b2 =? 1) eqn:E2; [discriminate |].
  destruct (byte_val b2 =? 0) eqn:E2'; [| discriminate].
  destruct (4 <=? _); [| discriminate].
  destruct (byte_val b3 =? 1) eqn:E3; [| discriminate].
  intros _. zbool.
  rewrite (byte_val_zero b0 E0), (byte_val_zero b1 E1),
    (byte_val_zero b2 E2'), (byte_val_one b3 E3).
  exists rest. reflexivity.
Qed.

Lemma locate_head_start_code3 (rest : list byte) (len : Z) :
  locate_head (x00 :: x00 :: x01 :: rest) len = 3.
Proof. reflexivity. Qed.

Lemma locate_head_start_code4 (rest : list byte) (len : Z) :
  4 <= len -> locate_head (x00 :: x00 :: x00 :: x01 :: rest) len = 4.
Proof.
  intros Hlen. unfold locate_head, at_. cbn [nth].
  change (byte_val x00) with 0. change (byte_val x01) with 1.
  replace (4 <=? len) with true by (symmetry; zbool; lia).
  reflexivity.
Qed.

(** The scanner's result for three bytes or more, by what its parts give. *)
Lemma next_nal_long_cases (asserts : bool) (buffer : list byte)
  (r : option Z * Z) :
  3 <= Z.of_nat (length buffer) ->
  _h265_byte_stream_next_nal asserts buffer = Returned r ->
  let len := Z.of_nat (length buffer) in
  let nal_start := locate_head buffer len in
  exists cur found,
    find_next (skipn (Z.to_nat nal_start) buffer) nal_start
      (window xff xff xff xff) nal_start = (cur, found)
    /\ 0 <= nal_start <= len
    /\ nal_start <= cur <= len
    /\ ((cur = len
         /\ r = ((if len <=? nal_start then None else Some nal_start),
                 guint32 (len - nal_start)))
        \/ (cur < len
            /\ exists s, found = Some s /\ r = (Some nal_start, s)
                         /\ 0 <= s <= cur - 3 - nal_start)).
Proof.
  intros Hlen Hret. cbv zeta.
  rewrite next_nal_long in Hret by exact Hlen. cbv zeta in Hret.
  set (len := Z.of_nat (length buffer)) in *.
  set (nal_start := locate_head buffer len) in *.
  assert (Hhead : 0 <= nal_start <= len).
  { destruct (locate_head_cases buffer len) as [H | [H | [H H4]]];
      fold nal_start in H; lia. }
  destruct (find_next (skipn (Z.to_nat nal_start) buffer) nal_start
              (window xff xff xff xff) nal_start) as [cur found] eqn:Hrun.
  exists cur, found. split; [reflexivity |].
  apply find_next_bounds in Hrun;
    [| lia | rewrite Z.sub_diag; exact fresh_initial].
  rewrite length_skipn_Z in Hrun by (fold len; lia). fold len in Hrun.
  destruct Hrun as (Hcur & Hnone & Hsome).
  split; [exact Hhead | split; [lia |]].
  destruct (len <=? cur) eqn:Eend; zbool.
  - left. split; [lia |]. injection Hret as <-. reflexivity.
  - right. split; [lia |].
    destruct found as [s |].
    + exists s. split; [reflexivity |]. injection Hret as <-.
      split; [reflexivity | apply Hsome; reflexivity].
    + specialize (Hnone eq_refl). lia.
Qed.

Lemma length_three_bytes (rest : list byte) :
  Z.of_nat (length (x00 :: x00 :: x01 :: rest)) = 3 -> rest = [].
Proof. destruct rest; cbn [length]; [reflexivity | lia]. Qed.

Lemma length_four_bytes (rest : list byte) :
  Z.of_nat (length (x00 :: x00 :: x00 :: x01 :: rest)) = 4 -> rest = [].
Proof. destruct rest; cbn [length]; [reflexivity | lia]. Qed.

(** When the scanner returns [NULL], the size it reports is 0 and the buffer
    is empty or is exactly one start code. *)
Lemma next_nal_none (asserts : bool) (buffer : list byte) (nal_size : Z) :
  _h265_byte_stream_next_nal asserts buffer = Returned (None, nal_size) ->
  nal_size = 0 /\ (buffer = [] \/ is_start_code buffer).
Proof.
  intros Hret.
  destruct (Z.lt_ge_cases (Z.of_nat (length buffer)) 3) as [Hshort | Hlong].
  - destruct buffer as [| b0 buffer'].
    + rewrite next_nal_empty in Hret. destruct asserts; [discriminate Hret |].
      injection Hret as <-. split; [reflexivity | left; reflexivity].
    + rewrite next_nal_short in Hret by (cbn [length] in *; lia).
      discriminate Hret.
  - destruct (next_nal_long_cases asserts buffer _ Hlong Hret)
      as (cur & found & Hrun & Hhead & Hcur & [[Hend Hr] | [_ (s & _ & Hr & _)]]);
      [| discriminate Hr].
    destruct (Z.of_nat (length buffer) <=? _) eqn:Ewhole; [| discriminate Hr].
    zbool. injection Hr as Hsize.
    assert (Heq : locate_head buffer (Z.of_nat (length buffer))
                  = Z.of_nat (length buffer)) by lia.
    split.
    { rewrite Hsize, Heq, Z.sub_diag. reflexivity. }
    right.
    destruct (locate_head_cases buffer (Z.of_nat (length buffer)))
      as [H0 | [H3 | [H4 _]]]; [lia | |].
    + destruct (locate_head_three buffer Hlong H3) as [rest ->].
      rewrite H3 in Heq. symmetry in Heq.
      rewrite (length_three_bytes rest Heq). left. reflexivity.
    + destruct (locate_head_four buffer H4) as [rest ->].
      rewrite H4 in Heq. symmetry in Heq.
      rewrite (length_four_bytes rest Heq). right. reflexivity.
Qed.

(** The offset of the unit says which start code heads the buffer. *)
Lemma next_nal_offset (asserts : bool) (buffer : list byte)
  (nal_start nal_size : Z) :
  _h265_byte_stream_next_nal asserts buffer = Returned (Some nal_start, nal_size) ->
  (nal_start = 0
   /\ (forall rest, buffer <> x00 :: x00 :: x01 :: rest)
   /\ (forall rest, buffer <> x00 :: x00 :: x00 :: x01 :: rest))
  \/ (nal_start = 3 /\ exists rest, buffer = x00 :: x00 :: x01 :: rest)
  \/ (nal_start = 4 /\ exists rest, buffer = x00 :: x00 :: x00 :: x01 :: rest).
Proof.
  intros Hret.
  destruct (Z.lt_ge_cases (Z.of_nat (length buffer)) 3) as [Hshort | Hlong].
  - left. destruct buffer as [| b0 buffer'].
    + rewrite next_nal_empty in Hret. destruct asserts; discriminate Hret.
    + rewrite next_nal_short in Hret by (cbn [length] in *; lia).
      injection Hret as <- _.
      split; [reflexivity |].
      split; intros rest Heq; apply (f_equal (@length byte)) in Heq;
        cbn [length] in *; lia.
  - destruct (next_nal_long_cases asserts buffer _ Hlong Hret)
      as (cur & found & Hrun & Hhead & Hcur & Hcases).
    assert (Hstart : nal_start = locate_head buffer (Z.of_nat (length buffer))).
    { destruct Hcases as [[_ Hr] | [_ (s & _ & Hr & _)]].
      - destruct (_ <=? _); [discriminate Hr | congruence].
      - congruence. }
    destruct (locate_head_cases buffer (Z.of_nat (length buffer)))
      as [H0 | [H3 | [H4 Hlen4]]].
    + left. split; [lia |].
      split; intros rest ->.
      * rewrite locate_head_start_code3 in H0. discriminate H0.
      * rewrite locate_head_start_code4 in H0 by (cbn [length]; lia).
        discriminate H0.
    + right; left. split; [lia |]. apply locate_head_three; assumption.
    + right; right. split; [lia |]. apply locate_head_four; assumption.
Qed.

(** *** Start codes in what the loop reads *)

Lemma has_start_code_tail (b : byte) (bytes : list byte) :
  has_start_code (b :: bytes) = false -> has_start_code bytes = false.
Proof.
  destruct bytes as [| b1 [| b2 rest]]; try reflexivity.
  rewrite has_start_code_cons. intros H.
  apply orb_false_elim in H as [_ H]. exact H.
Qed.

Lemma has_start_code_app_l (bytes : list byte) :
  forall more : list byte,
    has_start_code (bytes ++ more) = false -> has_start_code bytes = false.
Proof.
  induction bytes as [| b0 bytes IH]; intros more H; [reflexivity |].
  destruct bytes as [| b1 [| b2 rest]]; try reflexivity.
  cbn [app] in H. rewrite has_start_code_cons in *.
  apply orb_false_elim in H as [Hhere Hrest].
  rewrite Hhere. cbn [orb].
  apply (IH more). exact Hrest.
Qed.

(** The loop left by [break]: what it has read ends with 00 00 01, holds no
    start code before that, and the size it stores depends on the byte ahead
    of the 00 00 01. *)
Lemma find_next_found (bytes : list byte) :
  forall (cur nal_start : Z) (w3 w2 w1 w0 : byte) (cur' s : Z),
    find_next bytes cur (window w3 w2 w1 w0) nal_start = (cur', Some s) ->
    exists pre rest l,
      bytes = pre ++ x01 :: rest
      /\ cur' = cur + Z.of_nat (length pre) + 1
      /\ has_start_code (w1 :: w0 :: pre) = false
      /\ w1 :: w0 :: pre = l ++ [x00; x00]
      /\ s = if byte_val (last (w2 :: l) xff) =? 0
             then guint32 (cur' - 4 - nal_start)
             else guint32 (cur' - 3 - nal_start).
Proof.
  induction bytes as [| b bytes IH];
    intros cur nal_start w3 w2 w1 w0 cur' s Hrun.
  - discriminate Hrun.
  - rewrite find_next_cons in Hrun.
    destruct ((byte_val w1 =? 0) && (byte_val w0 =? 0) && (byte_val b =? 1))
      eqn:Ematch.
    + apply andb_true_iff in Ematch as [Ematch Eb].
      apply andb_true_iff in Ematch as [E1 E0]. zbool.
      apply byte_val_zero in E1, E0. apply byte_val_one in Eb. subst w1 w0 b.
      exists [], bytes, [].
      split; [reflexivity |].
      cbn [length app last Z.of_nat].
      destruct (byte_val w2 =? 0); injection Hrun as <- <-;
        (split; [lia | split; [reflexivity | split; reflexivity]]).
    + destruct (IH _ _ _ _ _ _ _ _ Hrun) as (pre & rest & l & Hb & Hc & Hclean & Hl & Hs).
      exists (b :: pre), rest, (w1 :: l).
      split; [rewrite Hb; reflexivity |].
      split; [cbn [length]; lia |].
      split.
      { rewrite has_start_code_cons, Ematch. exact Hclean. }
      split; [cbn [app]; rewrite <- Hl; reflexivity |].
      exact Hs.
Qed.

(** A payload without start code that does not end in 00, followed by
    00 00 01: the loop leaves by [break] right after the 01 and stores the
    length of the payload. *)
Lemma find_next_marker3 (payload : list byte) :
  forall (rest : list byte) (cur nal_start : Z) (w3 w2 w1 w0 : byte),
    has_start_code (w1 :: w0 :: payload) = false ->
    byte_val (last (w0 :: payload) xff) <> 0 ->
    find_next (payload ++ x00 :: x00 :: x01 :: rest) cur
      (window w3 w2 w1 w0) nal_start
    = (cur + Z.of_nat (length payload) + 3,
       Some (guint32 (cur + Z.of_nat (length payload) - nal_start))).
Proof.
  induction payload as [| b payload IH];
    intros rest cur nal_start w3 w2 w1 w0 Hclean Hlast.
  - cbn [app length Z.of_nat last] in *.
    rewrite find_next_cons.
    replace ((byte_val w1 =? 0) && (byte_val w0 =? 0) && (byte_val x00 =? 1))
      with false by (symmetry; apply andb_false_r).
    rewrite find_next_cons.
    replace ((byte_val w0 =? 0) && (byte_val x00 =? 0) && (byte_val x00 =? 1))
      with false by (symmetry; apply andb_false_r).
    rewrite find_next_cons.
    change (byte_val x00) with 0. change (byte_val x01) with 1.
    change (0 =? 0) with true. change (1 =? 1) with true. cbn [andb].
    replace (byte_val w0 =? 0) with false by (symmetry; zbool; exact Hlast).
    f_equal; [lia | f_equal; f_equal; lia].
  - cbn [app].
    rewrite find_next_cons.
    rewrite has_start_code_cons in Hclean.
    apply orb_false_elim in Hclean as [Hhere Hrest].
    rewrite Hhere.
    rewrite IH; [| exact Hrest | exact Hlast].
    cbn [length].
    f_equal; [lia | f_equal; f_equal; lia].
Qed.

(** *** The scanner behind a start code *)

Lemma last_default (payload : list byte) (b d d' : byte) :
  payload <> [] -> last (b :: payload) d = last payload d'.
Proof.
  intros Hne. revert b.
  induction payload as [| b0 payload IH]; intros b; [contradiction |].
  destruct payload as [| b1 payload]; [reflexivity |].
  change (last (b :: b0 :: b1 :: payload) d) with (last (b0 :: b1 :: payload) d).
  change (last (b0 :: b1 :: payload) d') with (last (b1 :: payload) d').
  rewrite IH by discriminate.
  reflexivity.
Qed.

(** The scanner on a buffer headed by a start code, its loop named. *)
Lemma next_nal_with_head (asserts : bool) (head body : list byte) :
  is_start_code head ->
  _h265_byte_stream_next_nal asserts (head ++ body)
  = let start := Z.of_nat (length head) in
    let len := start + Z.of_nat (length body) in
    let '(cur, found) := find_next body start (window xff xff xff xff) start in
    if len <=? cur then
      Returned ((if len <=? start then None else Some start), guint32 (len - start))
    else Returned (Some start, match found with Some s => s | None => 0 end).
Proof.
  intros [-> | ->]; unfold start_code3, start_code4; cbn [app].
  - rewrite next_nal_long by (cbn [length]; lia). cbv zeta.
    rewrite locate_head_start_code3.
    change (Z.to_nat 3) with 3%nat. cbn [skipn].
    replace (Z.of_nat (length (x00 :: x00 :: x01 :: body)))
      with (Z.of_nat (length [x00; x00; x01]) + Z.of_nat (length body))
      by (cbn [length]; lia).
    reflexivity.
  - rewrite next_nal_long by (cbn [length]; lia). cbv zeta.
    rewrite locate_head_start_code4 by (cbn [length]; lia).
    change (Z.to_nat 4) with 4%nat. cbn [skipn].
    replace (Z.of_nat (length (x00 :: x00 :: x00 :: x01 :: body)))
      with (Z.of_nat (length [x00; x00; x00; x01]) + Z.of_nat (length body))
      by (cbn [length]; lia).
    reflexivity.
Qed.

Lemma length_start_code (head : list byte) :
  is_start_code head -> 3 <= Z.of_nat (length head) <= 4.
Proof. intros [-> | ->]; cbn [length start_code3 start_code4]; lia. Qed.

(** A payload behind either start code, free of start codes and not ending
    in 00, and either the last one or followed by either start code and at
    least one more byte: the scanner returns the payload. *)
Lemma next_nal_payload_unit (asserts : bool) (head payload rest : list byte) :
  is_start_code head ->
  payload <> [] ->
  has_start_code payload = false ->
  byte_val (last payload x00) <> 0 ->
  rest = []
  \/ (exists marker b rest', is_start_code marker /\ rest = marker ++ b :: rest') ->
  Z.of_nat (length (head ++ payload ++ rest)) < 2 ^ 32 ->
  _h265_byte_stream_next_nal asserts (head ++ payload ++ rest)
  = Returned (Some (Z.of_nat (length head)), Z.of_nat (length payload)).
Proof.
  intros Hhead Hne Hclean Hlast Hrest Hsmall.
  pose proof (has_start_code_fresh payload Hclean) as Hclean'.
  pose proof (length_start_code head Hhead) as Hlen.
  assert (Hpos : 0 < Z.of_nat (length payload)).
  { destruct payload; [contradiction | cbn [length]; lia]. }
  assert (Hlast' : byte_val (last (xff :: payload) xff) <> 0).
  { rewrite (last_default payload xff xff x00 Hne). exact Hlast. }
  rewrite !length_app in Hsmall.
  rewrite next_nal_with_head by exact Hhead. cbv zeta.
  rewrite length_app.
  destruct Hrest as [-> | (marker & b & rest' & [-> | ->] & ->)].
  - rewrite app_nil_r, find_next_clean by exact Hclean'.
    cbn [length] in *.
    replace (_ <=? Z.of_nat (length head) + Z.of_nat (length payload))
      with true by (symmetry; zbool; lia).
    replace (_ <=? Z.of_nat (length head)) with false by (symmetry; zbool; lia).
    f_equal. f_equal. rewrite guint32_small; lia.
  - unfold start_code3. cbn [app].
    rewrite find_next_marker3 by assumption.
    cbn [length] in *. rewrite length_app in Hsmall. cbn [length] in Hsmall.
    replace (_ <=? Z.of_nat (length head) + Z.of_nat (length payload) + 3)
      with false by (symmetry; zbool; lia).
    f_equal. f_equal. rewrite guint32_small; lia.
  - unfold start_code4. cbn [app].
    rewrite find_next_marker by exact Hclean'.
    cbn [length] in *. rewrite length_app in Hsmall. cbn [length] in Hsmall.
    replace (_ <=? Z.of_nat (length head) + Z.of_nat (length payload) + 4)
      with false by (symmetry; zbool; lia).
    f_equal. f_equal. rewrite guint32_small; lia.
Qed.

(** A start code directly behind the start code at the head, and at least
    one byte after it: the scanner returns a unit of size zero. *)
Lemma next_nal_empty_unit (asserts : bool) (head marker : list byte) (b : byte)
  (rest : list byte) :
  is_start_code head ->
  is_start_code marker ->
  _h265_byte_stream_next_nal asserts (head ++ marker ++ b :: rest)
  = Returned (Some (Z.of_nat (length head)), 0).
Proof.
  intros Hhead Hmarker.
  pose proof (length_start_code head Hhead) as Hlen.
  rewrite next_nal_with_head by exact Hhead. cbv zeta.
  destruct Hmarker as [-> | ->].
  - unfold start_code3. cbn [app].
    rewrite (find_next_marker3 [] (b :: rest)) by (try reflexivity; discriminate).
    cbn [length].
    replace (_ <=? Z.of_nat (length head) + Z.of_nat 0 + 3)
      with false by (symmetry; zbool; lia).
    f_equal. f_equal.
    replace (Z.of_nat (length head) + Z.of_nat 0 - Z.of_nat (length head))
      with 0 by lia.
    reflexivity.
  - unfold start_code4. cbn [app].
    rewrite (find_next_marker [] (b :: rest)) by reflexivity.
    cbn [length].
    replace (_ <=? Z.of_nat (length head) + Z.of_nat 0 + 4)
      with false by (symmetry; zbool; lia).
    f_equal. f_equal.
    replace (Z.of_nat (length head) + Z.of_nat 0 - Z.of_nat (length head))
      with 0 by lia.
    reflexivity.
Qed.

(** *** What the returned unit holds *)

Lemma app_two_zero (pre l : list byte) :
  xff :: xff :: pre = l ++ [x00; x00] ->
  exists pre0, pre = pre0 ++ [x00; x00] /\ l = xff :: xff :: pre0.
Proof.
  intros H. destruct l as [| a [| b l]]; cbn [app] in H.
  - discriminate H.
  - injection H as _ H _. discriminate H.
  - injection H as <- <- H. exists l. split; [exact H | reflexivity].
Qed.

Lemma firstn_length_app (pre rest : list byte) :
  firstn (length pre) (pre ++ rest) = pre.
Proof.
  induction pre as [| b pre IH]; [destruct rest; reflexivity |].
  cbn [length firstn app]. rewrite IH. reflexivity.
Qed.

(** The unit of a scan that the loop left by [break]: it holds no start
    code, and a start code follows it, behind which the loop stopped. *)
Lemma find_next_unit (bytes : list byte) (nal_start cur s : Z) :
  0 <= nal_start ->
  cur - nal_start < 2 ^ 32 ->
  find_next bytes nal_start (window xff xff xff xff) nal_start = (cur, Some s) ->
  0 <= s
  /\ has_start_code (firstn (Z.to_nat s) bytes) = false
  /\ exists rest,
       (skipn (Z.to_nat s) bytes = x00 :: x00 :: x01 :: rest
        /\ cur = nal_start + s + 3)
       \/ (skipn (Z.to_nat s) bytes = x00 :: x00 :: x00 :: x01 :: rest
           /\ cur = nal_start + s + 4).
Proof.
  intros Hstart Hsmall Hrun.
  destruct (find_next_found _ _ _ _ _ _ _ _ _ Hrun)
    as (pre & rest & l & Hbytes & Hcur & Hclean & Hl & Hs).
  destruct (app_two_zero pre l Hl) as (pre0 & Hpre & Hl0).
  subst l pre. rewrite length_app in Hcur. cbn [length] in Hcur.
  apply has_start_code_tail, has_start_code_tail in Hclean.
  assert (Hbytes' : bytes = pre0 ++ x00 :: x00 :: x01 :: rest).
  { rewrite Hbytes, <- app_assoc. reflexivity. }
  destruct (list_eq_dec Byte.byte_eq_dec pre0 []) as [-> | Hne].
  - cbn [last app length] in *.
    change (byte_val xff =? 0) with false in Hs. cbv iota in Hs.
    rewrite guint32_small in Hs by lia.
    replace s with 0 by lia.
    split; [lia | split; [reflexivity |]].
    exists rest. left. split; [exact Hbytes' | lia].
  - destruct (exists_last Hne) as (p & z & Hp). subst pre0.
    replace (last (xff :: xff :: xff :: p ++ [z]) xff) with z in Hs
      by (symmetry; apply (last_last (xff :: xff :: xff :: p) z xff)).
    rewrite length_app in Hcur. cbn [length] in Hcur.
    destruct (byte_val z =? 0) eqn:Ez.
    + zbool. apply byte_val_zero in Ez. subst z.
      rewrite guint32_small in Hs by lia.
      assert (Hsp : s = Z.of_nat (length p)) by lia.
      rewrite Hsp, Nat2Z.id.
      rewrite Hbytes', <- !app_assoc. cbn [app].
      rewrite firstn_length_app, skipn_length_app.
      split; [lia | split].
      * apply (has_start_code_app_l p ([x00] ++ [x00; x00])).
        rewrite app_assoc. exact Hclean.
      * exists rest. right. split; [reflexivity | lia].
    + rewrite guint32_small in Hs by lia.
      assert (Hsp : s = Z.of_nat (length (p ++ [z]))).
      { rewrite length_app. cbn [length]. lia. }
      rewrite Hsp, Nat2Z.id.
      rewrite Hbytes'.
      rewrite firstn_length_app, skipn_length_app.
      split; [lia | split].
      * apply (has_start_code_app_l (p ++ [z]) [x00; x00]). exact Hclean.
      * exists rest. left. split; [reflexivity |].
        rewrite length_app. cbn [length]. lia.
Qed.

(** The same for the scanner: a unit that ends ahead of the end of the buffer
    holds no start code, and a start code follows it; with [cur] the place
    behind that start code, which is within the buffer. *)
Lemma next_nal_unit_shape (asserts : bool) (buffer : list byte)
  (nal_start nal_size : Z) :
  Z.of_nat (length buffer) < 2 ^ 32 ->
  _h265_byte_stream_next_nal asserts buffer = Returned (Some nal_start, nal_size) ->
  nal_start + nal_size < Z.of_nat (length buffer) ->
  has_start_code (firstn (Z.to_nat nal_size) (skipn (Z.to_nat nal_start) buffer))
  = false
  /\ exists rest,
       (skipn (Z.to_nat nal_size) (skipn (Z.to_nat nal_start) buffer)
        = x00 :: x00 :: x01 :: rest
        /\ nal_start + nal_size + 3 < Z.of_nat (length buffer))
       \/ (skipn (Z.to_nat nal_size) (skipn (Z.to_nat nal_start) buffer)
           = x00 :: x00 :: x00 :: x01 :: rest
           /\ nal_start + nal_size + 4 < Z.of_nat (length buffer)).
Proof.
  intros Hsmall Hret Hin.
  destruct (Z.lt_ge_cases (Z.of_nat (length buffer)) 3) as [Hshort | Hlong].
  { destruct buffer as [| b0 buffer'].
    - rewrite next_nal_empty in Hret. destruct asserts; discriminate Hret.
    - rewrite next_nal_short in Hret by (cbn [length] in *; lia).
      assert (Hstart : nal_start = 0) by congruence.
      assert (Hlen : nal_size = Z.of_nat (length (b0 :: buffer'))) by congruence.
      lia. }
  destruct (next_nal_long_cases asserts buffer _ Hlong Hret)
    as (cur & found & Hrun & Hhead & Hcur
        & [[Hend Hr] | [Hbefore (s & Hfound & Hr & Hs)]]).
  - exfalso.
    destruct (Z.of_nat (length buffer) <=? _); [discriminate Hr |].
    injection Hr as Hstart Hsize.
    rewrite guint32_small in Hsize by lia. lia.
  - injection Hr as Hstart Hsize. subst found s.
    rewrite <- Hstart in *.
    apply find_next_unit in Hrun; [| lia | lia].
    destruct Hrun as (_ & Hclean & rest & Hafter).
    split; [exact Hclean |].
    exists rest. destruct Hafter as [[H Hc] | [H Hc]];
      [left | right]; (split; [exact H | lia]).
Qed.

(** A unit of size zero: the buffer is a start code, a second start code
    and at least one more byte. *)
Lemma next_nal_zero_unit_shape (asserts : bool) (buffer : list byte)
  (nal_start : Z) :
  Z.of_nat (length buffer) < 2 ^ 32 ->
  _h265_byte_stream_next_nal asserts buffer = Returned (Some nal_start, 0) ->
  exists head marker b rest,
    is_start_code head /\ is_start_code marker
    /\ buffer = head ++ marker ++ b :: rest
    /\ nal_start = Z.of_nat (length head).
Proof.
  intros Hsmall Hret.
  pose proof (next_nal_bounds _ _ _ _ Hret) as (Hpos & _ & Hend).
  assert (Hin : nal_start + 0 < Z.of_nat (length buffer)).
  { destruct (Z.lt_ge_cases (Z.of_nat (length buffer)) 3) as [Hshort | Hlong].
    - destruct buffer as [| b0 buffer'].
      + rewrite next_nal_empty in Hret. destruct asserts; discriminate Hret.
      + rewrite next_nal_short in Hret by (cbn [length] in *; lia).
        assert (Hlen : Z.of_nat (length (b0 :: buffer')) = 0) by congruence.
        cbn [length] in Hlen. lia.
    - destruct (next_nal_long_cases asserts buffer _ Hlong Hret)
        as (cur & found & Hrun & Hhead & Hcur
            & [[Hcend Hr] | [Hbefore (s & Hfound & Hr & Hs)]]).
      + destruct (Z.of_nat (length buffer) <=? _) eqn:E; [discriminate Hr |].
        zbool. injection Hr as Hstart Hsize. lia.
      + injection Hr as Hstart Hsize. lia. }
  destruct (next_nal_unit_shape asserts buffer nal_start 0 Hsmall Hret Hin)
    as (_ & rest & Hafter).
  change (Z.to_nat 0) with 0%nat in Hafter. cbn [skipn] in Hafter.
  assert (Hmarker : exists marker b rest',
            is_start_code marker
            /\ skipn (Z.to_nat nal_start) buffer = marker ++ b :: rest').
  { destruct Hafter as [[H Hc] | [H Hc]].
    - destruct rest as [| b rest'].
      + apply (f_equal (@length byte)) in H. rewrite length_skipn in H.
        cbn [length] in H. lia.
      + exists start_code3, b, rest'. split; [left; reflexivity | exact H].
    - destruct rest as [| b rest'].
      + apply (f_equal (@length byte)) in H. rewrite length_skipn in H.
        cbn [length] in H. lia.
      + exists start_code4, b, rest'. split; [right; reflexivity | exact H]. }
  destruct Hmarker as (marker & b & rest' & Hm & Hskip).
  destruct (next_nal_offset _ _ _ _ Hret)
    as [[H0 [Hno3 Hno4]] | [[H3 [rest0 Hbuf]] | [H4 [rest0 Hbuf]]]].
  - exfalso. subst nal_start. change (Z.to_nat 0) with 0%nat in Hskip.
    cbn [skipn] in Hskip.
    destruct Hm as [-> | ->]; [eapply Hno3 | eapply Hno4]; exact Hskip.
  - subst nal_start buffer. change (Z.to_nat 3) with 3%nat in Hskip.
    cbn [skipn] in Hskip. subst rest0.
    exists start_code3, marker, b, rest'.
    split; [left; reflexivity | split; [exact Hm | split; reflexivity]].
  - subst nal_start buffer. change (Z.to_nat 4) with 4%nat in Hskip.
    cbn [skipn] in Hskip. subst rest0.
    exists start_code4, marker, b, rest'.
    split; [right; reflexivity | split; [exact Hm | split; reflexivity]].
Qed.

(** ** The rewrite *)

(** One round on a unit behind a 4-byte start code: the size is written over
    the start code and the cursor moves behind the payload. *)
Lemma loop_body_unit (asserts : bool) (done payload rest : list byte) :
  nal_payload payload ->
  unit_boundary rest ->
  Z.of_nat (length (done ++ start_code4 ++ payload ++ rest)) < 2 ^ 32 ->
  loop_body asserts (done ++ start_code4 ++ payload ++ rest)
    (Z.of_nat (length done))
  = Returned (Continue
      (done ++ be32 (Z.of_nat (length payload)) ++ payload ++ rest)
      (Z.of_nat (length done) + 4 + Z.of_nat (length payload))).
Proof.
  intros (Hne & Hclean & Hlast) Hrest Hsmall.
  rewrite !length_app in Hsmall. cbn [length start_code4] in Hsmall.
  unfold loop_body.
  replace (Z.of_nat (length done) <? _) with true
    by (symmetry; zbool; rewrite !length_app; cbn [length start_code4]; lia).
  rewrite region_whole
    by (rewrite !length_app; cbn [length start_code4]; lia).
  rewrite Nat2Z.id, skipn_length_app.
  rewrite next_nal_payload_unit;
    [| right; reflexivity | exact Hne | exact Hclean | exact Hlast | exact Hrest
     | rewrite !length_app; cbn [length start_code4]; lia].
  replace (Z.of_nat (length payload) =? 0) with false.
  2:{ symmetry; zbool. destruct payload; [contradiction | cbn [length]; lia]. }
  change (Z.of_nat (length start_code4)) with 4.
  unfold g_assert. change (4 =? 4) with true.
  rewrite andb_false_r.
  unfold start_code4. cbn [app].
  rewrite start_code_to_size_app.
  reflexivity.
Qed.

Lemma byte_stream_boundary (payloads : list (list byte)) (tail : list byte) :
  Forall nal_payload payloads ->
  unit_boundary tail ->
  unit_boundary (byte_stream payloads ++ tail).
Proof.
  intros Hwf Htail. destruct payloads as [| payload payloads]; [exact Htail |].
  apply Forall_inv in Hwf. destruct Hwf as (Hne & _ & _).
  destruct payload as [| b payload]; [contradiction |].
  right. exists start_code4, b, (payload ++ byte_stream payloads ++ tail).
  split; [right; reflexivity |].
  rewrite byte_stream_cons. cbn [app start_code4]. rewrite <- app_assoc.
  reflexivity.
Qed.

(** The rounds of the loop over the units of a byte stream: it reaches the
    end of the units with every start code replaced by the size of its
    payload and what follows the units untouched. *)
Lemma reaches_units (asserts : bool) (payloads : list (list byte)) :
  forall done tail : list byte,
    Forall nal_payload payloads ->
    unit_boundary tail ->
    Z.of_nat (length (done ++ byte_stream payloads ++ tail)) < 2 ^ 32 ->
    reaches asserts
      (done ++ byte_stream payloads ++ tail, Z.of_nat (length done))
      (done ++ length_prefixed payloads ++ tail,
       Z.of_nat (length (done ++ length_prefixed payloads))).
Proof.
  induction payloads as [| payload payloads IH]; intros done tail Hwf Htail Hsmall.
  - cbn [byte_stream length_prefixed flat_map app]. rewrite app_nil_r.
    apply reaches_here.
  - pose proof (Forall_inv Hwf) as Hpayload.
    pose proof (Forall_inv_tail Hwf) as Hwf'.
    rewrite byte_stream_cons, length_prefixed_cons.
    change (x00 :: x00 :: x00 :: x01 :: payload ++ byte_stream payloads)
      with (start_code4 ++ payload ++ byte_stream payloads).
    rewrite byte_stream_cons in Hsmall.
    change (x00 :: x00 :: x00 :: x01 :: payload ++ byte_stream payloads)
      with (start_code4 ++ payload ++ byte_stream payloads) in Hsmall.
    rewrite <- !app_assoc in *.
    eapply reaches_round.
    + apply loop_body_unit;
        [exact Hpayload | apply byte_stream_boundary; assumption | exact Hsmall].
    + specialize (IH (done ++ be32 (Z.of_nat (length payload)) ++ payload) tail
                    Hwf' Htail).
      rewrite <- !app_assoc in IH.
      replace (Z.of_nat (length done) + 4 + Z.of_nat (length payload))
        with (Z.of_nat (length (done ++ be32 (Z.of_nat (length payload)) ++ payload)))
        by (rewrite !length_app, length_be32; lia).
      apply IH.
      rewrite !length_app, length_be32 in *. cbn [length start_code4] in Hsmall.
      lia.
Qed.

(** The round at the end of the units of [reaches_units], with [done]
    empty. *)
Lemma region_after_units (payloads : list (list byte)) (tail : list byte) :
  Z.of_nat (length (byte_stream payloads ++ tail)) < 2 ^ 32 ->
  region (length_prefixed payloads ++ tail)
    (Z.of_nat (length (length_prefixed payloads)))
  = tail.
Proof.
  intros Hsmall.
  rewrite length_app, <- length_byte_stream in Hsmall.
  rewrite region_whole by (rewrite length_app; lia).
  rewrite Nat2Z.id. apply skipn_length_app.
Qed.




(** ** The profile selector *)

Section SelectorMore.

Variable identify : string -> GstVaapiProfile.
Variable score : GstVaapiProfile -> N.

Lemma resolve_known (value : option GValue) (profile : GstVaapiProfile) :
  resolve identify value = Some profile -> profile <> GST_VAAPI_PROFILE_UNKNOWN.
Proof.
  unfold resolve. destruct value as [[[str |] | values |] |]; try discriminate.
  destruct (identify str =? 0)%N eqn:E; [discriminate |].
  intros H. injection H as <-. apply N.eqb_neq in E. exact E.
Qed.

(** The best rank never goes down, and a candidate that resolves leaves it at
    its own rank or above. *)
Lemma find_best_profile_value_score (data : FindBestProfileData)
  (value : option GValue) :
  (best_score data
   <= best_score (find_best_profile_value identify score data value))%N
  /\ (forall q, resolve identify value = Some q ->
        (score q
         <= best_score (find_best_profile_value identify score data value))%N).
Proof.
  rewrite find_best_profile_value_rule.
  destruct (resolve identify value) as [profile |]; [| split; [lia | discriminate]].
  destruct (best_score data <=? score profile)%N eqn:E.
  - apply N.leb_le in E. cbn [best_score].
    split; [exact E | intros q Hq; injection Hq as <-; lia].
  - apply N.leb_gt in E. split; [lia | intros q Hq; injection Hq as <-; lia].
Qed.

Lemma fold_score_grows (values : list (option GValue)) :
  forall data : FindBestProfileData,
    (best_score data
     <= best_score (fold_left (find_best_profile_value identify score) values data))%N.
Proof.
  induction values as [| v values IH]; intros data; [cbn; lia |].
  cbn [fold_left].
  pose proof (proj1 (find_best_profile_value_score data v)).
  specialize (IH (find_best_profile_value identify score data v)). lia.
Qed.

(** Every resolving candidate has a rank at most the final best rank. *)
Lemma fold_covers (values : list (option GValue)) :
  forall (data : FindBestProfileData) (v : option GValue) (q : GstVaapiProfile),
    In v values ->
    resolve identify v = Some q ->
    (score q
     <= best_score (fold_left (find_best_profile_value identify score) values data))%N.
Proof.
  induction values as [| v0 values IH]; intros data v q Hin Hq; [destruct Hin |].
  cbn [fold_left]. destruct Hin as [-> | Hin].
  - pose proof (proj2 (find_best_profile_value_score data v) q Hq).
    pose proof (fold_score_grows values
                  (find_best_profile_value identify score data v)). lia.
  - apply (IH _ v q Hin Hq).
Qed.

(** The final data are the initial ones, or the profile and the rank of a
    candidate. *)
Lemma fold_selected (values : list (option GValue)) :
  forall data : FindBestProfileData,
    let final := fold_left (find_best_profile_value identify score) values data in
    final = data
    \/ exists v, In v values
                 /\ resolve identify v = Some (best_profile final)
                 /\ best_score final = score (best_profile final).
Proof.
  induction values as [| v values IH]; intros data; [left; reflexivity |].
  cbn [fold_left]. cbv zeta.
  destruct (IH (find_best_profile_value identify score data v))
    as [Hsame | (v' & Hin & Hres & Hscore)].
  - rewrite Hsame. rewrite find_best_profile_value_rule.
    destruct (resolve identify v) as [profile |] eqn:Ev; [| left; reflexivity].
    destruct (best_score data <=? score profile)%N; [| left; reflexivity].
    right. exists v. cbn [best_profile best_score].
    split; [left; reflexivity | split; [exact Ev | reflexivity]].
  - right. exists v'. split; [right; exact Hin | split; assumption].
Qed.

(** Once a profile is selected, or as long as the best rank is 0, a
    resolving candidate leaves a profile selected. *)
Lemma fold_known (values : list (option GValue)) :
  forall data : FindBestProfileData,
    best_profile data <> GST_VAAPI_PROFILE_UNKNOWN \/ best_score data = 0%N ->
    (best_profile (fold_left (find_best_profile_value identify score) values data)
     <> GST_VAAPI_PROFILE_UNKNOWN
     \/ best_score (fold_left (find_best_profile_value identify score) values data)
        = 0%N)
    /\ ((exists v q, In v values /\ resolve identify v = Some q) ->
        best_profile (fold_left (find_best_profile_value identify score) values data)
        <> GST_VAAPI_PROFILE_UNKNOWN).
Proof.
  induction values as [| v values IH]; intros data Hinv.
  - split; [exact Hinv | intros (v & q & [] & _)].
  - cbn [fold_left].
    assert (Hstep :
      (best_profile (find_best_profile_value identify score data v)
       <> GST_VAAPI_PROFILE_UNKNOWN
       \/ best_score (find_best_profile_value identify score data v) = 0%N)
      /\ (forall q, resolve identify v = Some q ->
            best_profile (find_best_profile_value identify score data v)
            <> GST_VAAPI_PROFILE_UNKNOWN)).
    { rewrite find_best_profile_value_rule.
      destruct (resolve identify v) as [profile |] eqn:Ev;
        [| split; [exact Hinv | discriminate]].
      pose proof (resolve_known v profile Ev) as Hknown.
      destruct (best_score data <=? score profile)%N eqn:E.
      - cbn [best_profile]. split; [left; exact Hknown | intros _ _; exact Hknown].
      - apply N.leb_gt in E. split; [exact Hinv |].
        intros _ _. destruct Hinv as [H | H]; [exact H | lia]. }
    destruct Hstep as [Hinv' Hres].
    destruct (IH _ Hinv') as [Hfinal Hsome].
    split; [exact Hfinal |].
    intros (v' & q & [<- | Hin] & Hq).
    + specialize (Hres q Hq).
      destruct (fold_selected values
                  (find_best_profile_value identify score data v))
        as [Hsame | (v0 & _ & Hv0 & _)]; cbv zeta in *.
      * rewrite Hsame. exact Hres.
      * apply (resolve_known v0 _ Hv0).
    + apply Hsome. exists v', q. split; assumption.
Qed.

(** What [find_best_profile] returns when it returns a profile: the profile
    of a candidate, of the highest rank among the candidates. *)
Lemma find_best_profile_selected (caps : GstCaps) :
  find_best_profile identify score caps <> GST_VAAPI_PROFILE_UNKNOWN ->
  (exists v, In v (candidates caps)
             /\ resolve identify v
                = Some (find_best_profile identify score caps))
  /\ (forall v q, In v (candidates caps) -> resolve identify v = Some q ->
        (score q <= score (find_best_profile identify score caps))%N).
Proof.
  rewrite find_best_profile_candidates.
  set (start := {| best_profile := GST_VAAPI_PROFILE_UNKNOWN; best_score := 0%N |}).
  intros Hknown.
  destruct (fold_selected (candidates caps) start)
    as [Hsame | (v & Hin & Hres & Hscore)]; cbv zeta in *.
  - rewrite Hsame in Hknown. contradiction Hknown. reflexivity.
  - split; [exists v; split; assumption |].
    intros v' q Hin' Hq. rewrite <- Hscore.
    apply (fold_covers (candidates caps) start v' q Hin' Hq).
Qed.

(** A resolving candidate makes [find_best_profile] return a profile. *)
Lemma find_best_profile_known (caps : GstCaps) (v : option GValue)
  (q : GstVaapiProfile) :
  In v (candidates caps) ->
  resolve identify v = Some q ->
  find_best_profile identify score caps <> GST_VAAPI_PROFILE_UNKNOWN.
Proof.
  intros Hin Hq. rewrite find_best_profile_candidates.
  apply (fold_known (candidates caps)).
  - right. reflexivity.
  - exists v, q. split; assumption.
Qed.

Lemma find_best_profile_none_resolves (caps : GstCaps) :
  (forall v, In v (candidates caps) -> resolve identify v = None) ->
  find_best_profile identify score caps = GST_VAAPI_PROFILE_UNKNOWN.
Proof.
  intros Hnone. rewrite find_best_profile_candidates, fold_unresolved;
    [reflexivity | exact Hnone].
Qed.

End SelectorMore.

(** ** The element *)

Lemma stream_format_loop_set (fmt : string) (structures : list GstStructure) :
  stream_format_loop (Some fmt) structures = Some fmt.
Proof. destruct structures; reflexivity. Qed.

Lemma stream_format_loop_cons (structure : GstStructure)
  (structures : list GstStructure) :
  stream_format_loop None (structure :: structures)
  = match gst_structure_get_string structure "stream-format" with
    | Some fmt => Some fmt
    | None => stream_format_loop None structures
    end.
Proof.
  cbn [stream_format_loop].
  unfold gst_structure_has_field_typed_string, gst_structure_get_string.
  destruct (gst_structure_get_value structure "stream-format")
    as [[[fmt |] | values |] |]; try reflexivity.
  apply stream_format_loop_set.
Qed.

(** The loop stops at the first structure whose "stream-format" is a string
    that is not [NULL]. *)
Lemma stream_format_loop_first (structures : list GstStructure) (fmt : string) :
  stream_format_loop None structures = Some fmt
  <-> exists before structure after,
        structures = before ++ structure :: after
        /\ Forall (fun s => gst_structure_get_string s "stream-format" = None)
             before
        /\ gst_structure_get_string structure "stream-format" = Some fmt.
Proof.
  induction structures as [| s structures IH].
  - split; [discriminate |].
    intros (before & structure & after & H & _). destruct before; discriminate H.
  - rewrite stream_format_loop_cons.
    destruct (gst_structure_get_string s "stream-format") as [fmt0 |] eqn:Es.
    + split.
      * intros H. injection H as ->.
        exists [], s, structures. repeat split; [constructor | exact Es].
      * intros (before & structure & after & H & Hbefore & Hfmt).
        destruct before as [| s0 before]; cbn [app] in H;
          injection H as Hs Ht; subst.
        -- congruence.
        -- apply Forall_inv in Hbefore. congruence.
    + rewrite IH. split.
      * intros (before & structure & after & H & Hbefore & Hfmt).
        exists (s :: before), structure, after.
        rewrite H.
        repeat split; [constructor; assumption | exact Hfmt].
      * intros (before & structure & after & H & Hbefore & Hfmt).
        destruct before as [| s0 before]; cbn [app] in H;
          injection H as Hs Ht; subst.
        -- congruence.
        -- exists before, structure, after.
           repeat split; [apply (Forall_inv_tail Hbefore) | exact Hfmt].
Qed.

Lemma pair_of_flag {A : Type} (r : bool * A) :
  (let '(ok, a) := r in if ok then (true, a) else (false, a)) = r.
Proof. destruct r as [[|] a]; reflexivity. Qed.

(** * Further properties of the code *)

(** ** The scanner *)

(** X1.  For a buffer that is not empty the scanner returns [NULL] exactly
    when the buffer is one bare start code, 00 00 01 or 00 00 00 01, and the
    size it reports with [NULL] is 0. *)
Theorem next_nal_returns_null (asserts : bool) (buffer : list byte) :
  buffer <> [] ->
  ((exists nal_size,
      _h265_byte_stream_next_nal asserts buffer = Returned (None, nal_size))
   <-> is_start_code buffer)
  /\ (forall nal_size,
        _h265_byte_stream_next_nal asserts buffer = Returned (None, nal_size) ->
        nal_size = 0).
Proof.
  intros Hne. split; [split |].
  - intros [nal_size Hret].
    destruct (next_nal_none asserts buffer nal_size Hret) as [_ [H | H]];
      [contradiction | exact H].
  - intros [-> | ->]; exists 0; destruct asserts; reflexivity.
  - intros nal_size Hret. apply (next_nal_none asserts buffer nal_size Hret).
Qed.

Lemma bare_start_code_is_no_unit :
  start_code4 <> []
  /\ exists nal_size,
       _h265_byte_stream_next_nal true start_code4 = Returned (None, nal_size).
Proof.
  assert (Hne : start_code4 <> []) by discriminate.
  split; [exact Hne |].
  apply (proj1 (next_nal_returns_null true start_code4 Hne)).
  right. reflexivity.
Defined.

(** X2.  The offset of a returned unit is 0, 3 or 4; it is 3 exactly when the
    buffer begins with 00 00 01 and 4 exactly when it begins with
    00 00 00 01. *)
Theorem next_nal_offset_tells_start_code (asserts : bool) (buffer : list byte)
  (nal_start nal_size : Z) :
  _h265_byte_stream_next_nal asserts buffer = Returned (Some nal_start, nal_size) ->
  (nal_start = 0 \/ nal_start = 3 \/ nal_start = 4)
  /\ (nal_start = 3 <-> exists rest, buffer = x00 :: x00 :: x01 :: rest)
  /\ (nal_start = 4 <-> exists rest, buffer = x00 :: x00 :: x00 :: x01 :: rest).
Proof.
  intros Hret.
  destruct (next_nal_offset asserts buffer nal_start nal_size Hret)
    as [(H0 & Hno3 & Hno4) | [(H3 & rest & Hbuf) | (H4 & rest & Hbuf)]].
  - split; [left; exact H0 |]. split; split.
    + lia.
    + intros [rest Hbuf]. destruct (Hno3 rest Hbuf).
    + lia.
    + intros [rest Hbuf]. destruct (Hno4 rest Hbuf).
  - split; [right; left; exact H3 |]. split; split.
    + intros _. exists rest. exact Hbuf.
    + intros _. exact H3.
    + lia.
    + intros [rest' Hbuf']. rewrite Hbuf in Hbuf'. discriminate Hbuf'.
  - split; [right; right; exact H4 |]. split; split.
    + lia.
    + intros [rest' Hbuf']. rewrite Hbuf in Hbuf'. discriminate Hbuf'.
    + intros _. exists rest. exact Hbuf.
    + intros _. exact H4.
Qed.

Lemma offset_of_mixed_stream :
  _h265_byte_stream_next_nal true mixed_stream = Returned (Some 3, 1)
  /\ (3 = 3 <-> exists rest, mixed_stream = x00 :: x00 :: x01 :: rest).
Proof.
  assert (Hret : _h265_byte_stream_next_nal true mixed_stream
                 = Returned (Some 3, 1)) by reflexivity.
  split; [exact Hret |].
  exact (proj1 (proj2 (next_nal_offset_tells_start_code true mixed_stream 3 1 Hret))).
Defined.

(** X3.  A returned unit that ends ahead of the end of the buffer holds no
    start code, and what follows it begins with a start code, 00 00 01 or
    00 00 00 01, that lies within the buffer and has at least one byte behind
    it. *)
Theorem next_nal_unit_ends_at_start_code (asserts : bool) (buffer : list byte)
  (nal_start nal_size : Z) :
  Z.of_nat (length buffer) < 2 ^ 32 ->
  _h265_byte_stream_next_nal asserts buffer = Returned (Some nal_start, nal_size) ->
  nal_start + nal_size < Z.of_nat (length buffer) ->
  has_start_code (firstn (Z.to_nat nal_size) (skipn (Z.to_nat nal_start) buffer))
  = false
  /\ exists marker b rest,
       is_start_code marker
       /\ skipn (Z.to_nat (nal_start + nal_size)) buffer = marker ++ b :: rest.
Proof.
  intros Hsmall Hret Hin.
  pose proof (next_nal_bounds _ _ _ _ Hret) as (Hstart & Hsize & _).
  destruct (next_nal_unit_shape asserts buffer nal_start nal_size Hsmall Hret Hin)
    as (Hclean & rest & Hafter).
  split; [exact Hclean |].
  rewrite skipn_skipn in Hafter.
  replace (Z.to_nat nal_size + Z.to_nat nal_start)%nat
    with (Z.to_nat (nal_start + nal_size)) in Hafter by lia.
  destruct Hafter as [[H Hc] | [H Hc]].
  - destruct rest as [| b rest'].
    + apply (f_equal (@length byte)) in H. rewrite length_skipn in H.
      cbn [length] in H. lia.
    + exists start_code3, b, rest'. split; [left; reflexivity | exact H].
  - destruct rest as [| b rest'].
    + apply (f_equal (@length byte)) in H. rewrite length_skipn in H.
      cbn [length] in H. lia.
    + exists start_code4, b, rest'. split; [right; reflexivity | exact H].
Qed.

Lemma first_unit_ends_at_start_code :
  Z.of_nat (length two_unit_stream) < 2 ^ 32
  /\ _h265_byte_stream_next_nal true two_unit_stream = Returned (Some 4, 2)
  /\ 4 + 2 < Z.of_nat (length two_unit_stream)
  /\ has_start_code (firstn (Z.to_nat 2) (skipn (Z.to_nat 4) two_unit_stream))
     = false.
Proof.
  assert (Hsmall : Z.of_nat (length two_unit_stream) < 2 ^ 32) by reflexivity.
  assert (Hret : _h265_byte_stream_next_nal true two_unit_stream
                 = Returned (Some 4, 2)) by reflexivity.
  assert (Hin : 4 + 2 < Z.of_nat (length two_unit_stream)) by reflexivity.
  split; [exact Hsmall | split; [exact Hret | split; [exact Hin |]]].
  exact (proj1 (next_nal_unit_ends_at_start_code true two_unit_stream 4 2
                  Hsmall Hret Hin)).
Defined.

(** X4.  A buffer that is not empty and holds no start code anywhere is
    returned whole, as one unit at offset 0. *)
Theorem next_nal_without_start_code (asserts : bool) (buffer : list byte) :
  buffer <> [] ->
  has_start_code buffer = false ->
  Z.of_nat (length buffer) < 2 ^ 32 ->
  _h265_byte_stream_next_nal asserts buffer
  = Returned (Some 0, Z.of_nat (length buffer)).
Proof.
  intros Hne Hclean Hsmall.
  destruct (Z.lt_ge_cases (Z.of_nat (length buffer)) 3) as [Hshort | Hlong].
  - apply next_nal_short.
    destruct buffer; [contradiction | cbn [length] in *; lia].
  - rewrite next_nal_long by exact Hlong. cbv zeta.
    assert (Hhead : locate_head buffer (Z.of_nat (length buffer)) = 0).
    { destruct (locate_head_cases buffer (Z.of_nat (length buffer)))
        as [H0 | [H3 | [H4 _]]]; [exact H0 | |].
      - destruct (locate_head_three buffer Hlong H3) as [rest ->].
        destruct rest; discriminate Hclean.
      - destruct (locate_head_four buffer H4) as [rest ->].
        destruct rest; discriminate Hclean. }
    rewrite Hhead. change (Z.to_nat 0) with 0%nat. cbn [skipn].
    rewrite find_next_clean by (apply has_start_code_fresh; exact Hclean).
    rewrite Z.add_0_l, Z.leb_refl.
    replace (Z.of_nat (length buffer) <=? 0) with false by (symmetry; zbool; lia).
    rewrite Z.sub_0_r, guint32_small by lia.
    reflexivity.
Qed.

Lemma plain_bytes_are_one_unit :
  [xaa; x00; xbb; x00; x00; xcc] <> []
  /\ has_start_code [xaa; x00; xbb; x00; x00; xcc] = false
  /\ Z.of_nat (length [xaa; x00; xbb; x00; x00; xcc]) < 2 ^ 32
  /\ _h265_byte_stream_next_nal true [xaa; x00; xbb; x00; x00; xcc]
     = Returned (Some 0, 6).
Proof.
  assert (Hne : [xaa; x00; xbb; x00; x00; xcc] <> []) by discriminate.
  assert (Hclean : has_start_code [xaa; x00; xbb; x00; x00; xcc] = false)
    by reflexivity.
  assert (Hsmall : Z.of_nat (length [xaa; x00; xbb; x00; x00; xcc]) < 2 ^ 32)
    by reflexivity.
  split; [exact Hne | split; [exact Hclean | split; [exact Hsmall |]]].
  exact (next_nal_without_start_code true _ Hne Hclean Hsmall).
Defined.

(** X5.  In a byte stream of NAL payloads the scanner returns the first
    payload, whichever start codes are used: behind a 3-byte or 4-byte start
    code, for a payload that is not empty, holds no start code and does not
    end in 00, and that ends the buffer or is followed by a 3-byte or 4-byte
    start code and at least one more byte, the unit is at the offset of the
    width of the start code, has the size of the payload, and its bytes are
    the payload. *)
Theorem next_nal_returns_payload (asserts : bool)
  (head payload rest : list byte) :
  is_start_code head ->
  nal_payload payload ->
  unit_boundary rest ->
  Z.of_nat (length (head ++ payload ++ rest)) < 2 ^ 32 ->
  _h265_byte_stream_next_nal asserts (head ++ payload ++ rest)
  = Returned (Some (Z.of_nat (length head)), Z.of_nat (length payload))
  /\ firstn (length payload) (skipn (length head) (head ++ payload ++ rest))
     = payload.
Proof.
  intros Hhead (Hne & Hclean & Hlast) Hrest Hsmall. split.
  - apply next_nal_payload_unit; assumption.
  - rewrite skipn_length_app. apply firstn_length_app.
Qed.

Lemma payload_behind_three_byte_start_code :
  is_start_code start_code3
  /\ nal_payload [xaa; xbb]
  /\ unit_boundary (start_code3 ++ xcc :: [])
  /\ Z.of_nat (length (start_code3 ++ [xaa; xbb] ++ start_code3 ++ xcc :: []))
     < 2 ^ 32
  /\ _h265_byte_stream_next_nal true
       [x00; x00; x01; xaa; xbb; x00; x00; x01; xcc]
     = Returned (Some 3, 2).
Proof.
  assert (Hhead : is_start_code start_code3) by (left; reflexivity).
  assert (Hpayload : nal_payload [xaa; xbb]).
  { split; [discriminate | split; [reflexivity | discriminate]]. }
  assert (Hrest : unit_boundary (start_code3 ++ xcc :: [])).
  { right. exists start_code3, xcc, []. split; [exact Hhead | reflexivity]. }
  assert (Hsmall :
    Z.of_nat (length (start_code3 ++ [xaa; xbb] ++ start_code3 ++ xcc :: []))
    < 2 ^ 32) by reflexivity.
  split; [exact Hhead | split; [exact Hpayload | split; [exact Hrest |
    split; [exact Hsmall |]]]].
  exact (proj1 (next_nal_returns_payload true start_code3 [xaa; xbb]
                  (start_code3 ++ xcc :: []) Hhead Hpayload Hrest Hsmall)).
Defined.

(** X6.  The scanner returns a unit of size zero exactly for an empty NAL
    unit: the buffer is a start code, directly behind it a second start code,
    and at least one more byte; the unit is then at the offset of the width
    of the first start code. *)
Theorem next_nal_zero_size_unit (asserts : bool) (buffer : list byte)
  (nal_start : Z) :
  Z.of_nat (length buffer) < 2 ^ 32 ->
  _h265_byte_stream_next_nal asserts buffer = Returned (Some nal_start, 0)
  <-> exists head marker b rest,
        is_start_code head /\ is_start_code marker
        /\ buffer = head ++ marker ++ b :: rest
        /\ nal_start = Z.of_nat (length head).
Proof.
  intros Hsmall. split.
  - apply next_nal_zero_unit_shape. exact Hsmall.
  - intros (head & marker & b & rest & Hhead & Hmarker & -> & ->).
    apply next_nal_empty_unit; assumption.
Qed.

Lemma empty_unit_has_size_zero :
  Z.of_nat (length [x00; x00; x00; x01; x00; x00; x01; xbb]) < 2 ^ 32
  /\ _h265_byte_stream_next_nal true [x00; x00; x00; x01; x00; x00; x01; xbb]
     = Returned (Some 4, 0).
Proof.
  assert (Hsmall :
    Z.of_nat (length [x00; x00; x00; x01; x00; x00; x01; xbb]) < 2 ^ 32)
    by reflexivity.
  split; [exact Hsmall |].
  apply (proj2 (next_nal_zero_size_unit true
                  [x00; x00; x00; x01; x00; x00; x01; xbb] 4 Hsmall)).
  exists start_code4, start_code3, xbb, [].
  split; [right; reflexivity | split; [left; reflexivity | split; reflexivity]].
Defined.

(** ** The rewrite *)





(** X10.  An empty NAL unit makes the rewrite return [FALSE], with or without
    assertions: for a stream of NAL payloads behind 4-byte start codes that is
    followed by a start code, directly behind it another start code and at
    least one more byte, the call returns [FALSE] and leaves the units ahead
    of the empty one rewritten and the rest as it was. *)
Theorem convert_empty_unit (asserts : bool) (payloads : list (list byte))
  (head marker : list byte) (b : byte) (rest : list byte) :
  Forall nal_payload payloads ->
  is_start_code head ->
  is_start_code marker ->
  Z.of_nat (length (byte_stream payloads ++ head ++ marker ++ b :: rest))
  < 2 ^ 32 ->
  _h265_convert_byte_stream_to_hvc asserts
    (writable_buffer (byte_stream payloads ++ head ++ marker ++ b :: rest))
  = Some (Returned (false,
      writable_buffer (length_prefixed payloads ++ head ++ marker ++ b :: rest))).
Proof.
  intros Hwf Hhead Hmarker Hsmall.
  set (tail := head ++ marker ++ b :: rest) in *.
  assert (Htail : unit_boundary tail).
  { right. unfold tail.
    destruct Hmarker as [-> | ->].
    - exists head, x00, (x00 :: x01 :: b :: rest). split; [exact Hhead | reflexivity].
    - exists head, x00, (x00 :: x00 :: x01 :: b :: rest).
      split; [exact Hhead | reflexivity]. }
  pose proof (reaches_units asserts payloads [] tail Hwf Htail Hsmall) as Hreach.
  cbn [app length] in Hreach.
  apply (convert_of_reached asserts _ _ _
           (Returned (Leave false (length_prefixed payloads ++ tail))) Hreach).
  unfold loop_body.
  replace (Z.of_nat (length (length_prefixed payloads)) <? _) with true.
  2:{ symmetry; zbool. rewrite length_app. unfold tail.
      rewrite !length_app. cbn [length].
      pose proof (length_start_code head Hhead). lia. }
  rewrite region_after_units by exact Hsmall.
  unfold tail. rewrite next_nal_empty_unit by assumption.
  reflexivity.
Qed.

Lemma empty_unit_after_one_unit :
  Forall nal_payload [[xaa]]
  /\ is_start_code start_code4
  /\ is_start_code start_code3
  /\ Z.of_nat (length (byte_stream [[xaa]] ++ start_code4 ++ start_code3
                         ++ xbb :: [])) < 2 ^ 32
  /\ _h265_convert_byte_stream_to_hvc true (writable_buffer empty_unit_stream)
     = Some (Returned (false, writable_buffer empty_unit_stream)).
Proof.
  assert (Hwf : Forall nal_payload [[xaa]]).
  { repeat constructor; discriminate. }
  assert (Hhead : is_start_code start_code4) by (right; reflexivity).
  assert (Hmarker : is_start_code start_code3) by (left; reflexivity).
  assert (Hsmall :
    Z.of_nat (length (byte_stream [[xaa]] ++ start_code4 ++ start_code3
                        ++ xbb :: [])) < 2 ^ 32) by reflexivity.
  split; [exact Hwf | split; [exact Hhead | split; [exact Hmarker |
    split; [exact Hsmall |]]]].
  exact (convert_empty_unit true [[xaa]] start_code4 start_code3 xbb []
           Hwf Hhead Hmarker Hsmall).
Defined.

(** X11.  With assertions compiled in, a unit behind a 3-byte start code stops
    the rewrite at the assertion [nal_body - nal_start_code == 4]: for a
    stream of NAL payloads behind 4-byte start codes, followed by a NAL payload
    behind 00 00 01, the program is aborted and nothing is returned. *)
Theorem convert_three_byte_start_code (payloads : list (list byte))
  (payload rest : list byte) :
  Forall nal_payload payloads ->
  nal_payload payload ->
  unit_boundary rest ->
  Z.of_nat (length (byte_stream payloads ++ start_code3 ++ payload ++ rest))
  < 2 ^ 32 ->
  _h265_convert_byte_stream_to_hvc true
    (writable_buffer (byte_stream payloads ++ start_code3 ++ payload ++ rest))
  = Some Aborted.
Proof.
  intros Hwf Hpayload Hrest Hsmall.
  set (tail := start_code3 ++ payload ++ rest) in *.
  destruct Hpayload as (Hne & Hclean & Hlast).
  assert (Htail : unit_boundary tail).
  { right. unfold tail. destruct payload as [| b payload]; [contradiction |].
    exists start_code3, b, (payload ++ rest).
    split; [left; reflexivity | reflexivity]. }
  pose proof (reaches_units true payloads [] tail Hwf Htail Hsmall) as Hreach.
  cbn [app length] in Hreach.
  apply (convert_of_reached true _ _ _ Aborted Hreach).
  unfold loop_body.
  replace (Z.of_nat (length (length_prefixed payloads)) <? _) with true.
  2:{ symmetry; zbool. rewrite length_app. unfold tail.
      rewrite !length_app. cbn [length start_code3]. lia. }
  rewrite region_after_units by exact Hsmall.
  unfold tail.
  rewrite next_nal_payload_unit;
    [| left; reflexivity | exact Hne | exact Hclean | exact Hlast | exact Hrest |].
  2:{ fold tail. rewrite length_app in Hsmall. lia. }
  replace (Z.of_nat (length payload) =? 0) with false.
  2:{ symmetry; zbool. destruct payload; [contradiction | cbn [length]; lia]. }
  reflexivity.
Qed.

Lemma three_byte_start_code_aborts :
  Forall nal_payload []
  /\ nal_payload [xaa]
  /\ unit_boundary (start_code4 ++ xbb :: [xcc; xdd])
  /\ Z.of_nat (length (byte_stream [] ++ start_code3 ++ [xaa]
                         ++ start_code4 ++ xbb :: [xcc; xdd])) < 2 ^ 32
  /\ _h265_convert_byte_stream_to_hvc true (writable_buffer mixed_stream)
     = Some Aborted.
Proof.
  assert (Hwf : Forall nal_payload []) by constructor.
  assert (Hpayload : nal_payload [xaa]).
  { split; [discriminate | split; [reflexivity | discriminate]]. }
  assert (Hrest : unit_boundary (start_code4 ++ xbb :: [xcc; xdd])).
  { right. exists start_code4, xbb, [xcc; xdd].
    split; [right; reflexivity | reflexivity]. }
  assert (Hsmall :
    Z.of_nat (length (byte_stream [] ++ start_code3 ++ [xaa]
                        ++ start_code4 ++ xbb :: [xcc; xdd])) < 2 ^ 32)
    by reflexivity.
  split; [exact Hwf | split; [exact Hpayload | split; [exact Hrest |
    split; [exact Hsmall |]]]].
  exact (convert_three_byte_start_code [] [xaa]
           (start_code4 ++ xbb :: [xcc; xdd]) Hwf Hpayload Hrest Hsmall).
Defined.

(** X12.  The rewrite is not idempotent.  With assertions compiled in, the
    rewrite of a buffer that is already size-prefixed does not return [TRUE]
    when the first payload is not exactly one byte long: the size field at the
    head is not the start code 00 00 00 01, and the call is stopped by the
    assertion or returns [FALSE] with the buffer as it was. *)
Theorem convert_twice_fails (payload : list byte) (payloads : list (list byte)) :
  payload <> [] ->
  length payload <> 1%nat ->
  Z.of_nat (length (length_prefixed (payload :: payloads))) < 2 ^ 32 ->
  _h265_convert_byte_stream_to_hvc true
    (writable_buffer (length_prefixed (payload :: payloads)))
  = Some Aborted
  \/ _h265_convert_byte_stream_to_hvc true
       (writable_buffer (length_prefixed (payload :: payloads)))
     = Some (Returned (false,
         writable_buffer (length_prefixed (payload :: payloads)))).
Proof.
  intros Hne Hone Hsmall.
  set (data := length_prefixed (payload :: payloads)) in *.
  assert (Hdata : data = be32 (Z.of_nat (length payload))
                         ++ payload ++ length_prefixed payloads)
    by apply length_prefixed_cons.
  assert (Hlen : 5 <= Z.of_nat (length data)).
  { rewrite Hdata, !length_app, length_be32.
    destruct payload; [contradiction | cbn [length]; lia]. }
  pose proof (convert_of_reached true data data 0 _
                (reaches_here true (data, 0)) eq_refl) as H.
  unfold loop_body in H.
  replace (0 <? Z.of_nat (length data)) with true in H by (symmetry; zbool; lia).
  rewrite region_whole in H by lia. change (Z.to_nat 0) with 0%nat in H.
  cbn [skipn] in H.
  destruct (_h265_byte_stream_next_nal true data)
    as [[[nal_body |] nal_size] | |] eqn:Escan.
  - destruct (nal_size =? 0); [right; exact H |].
    unfold g_assert in H. cbn [andb] in H.
    destruct (nal_body =? 4) eqn:Efour; cbn [negb] in H; [| left; exact H].
    exfalso. zbool. subst nal_body.
    destruct (next_nal_offset _ _ _ _ Escan)
      as [[H0 _] | [[H3 _] | [_ [rest Hshape]]]]; try lia.
    rewrite Hdata in Hshape. unfold be32 in Hshape. cbn [app] in Hshape.
    assert (Hfield : be32 (Z.of_nat (length payload)) = start_code4).
    { unfold be32, start_code4. congruence. }
    apply (f_equal be32_value) in Hfield.
    rewrite be32_value_be32 in Hfield.
    + change (be32_value start_code4) with 1 in Hfield. lia.
    + rewrite Hdata, !length_app, length_be32 in Hsmall. lia.
  - exfalso. destruct (next_nal_none _ _ _ Escan) as [_ [Hs | [Hs | Hs]]];
      rewrite Hs in Hlen; cbn [length start_code3 start_code4] in Hlen; lia.
  - left. exact H.
  - destruct (next_nal_in_bounds true data Escan).
Qed.

Lemma rewritten_stream_is_refused :
  [xaa; xbb] <> []
  /\ length [xaa; xbb] <> 1%nat
  /\ Z.of_nat (length (length_prefixed [[xaa; xbb]; [xcc]])) < 2 ^ 32
  /\ _h265_convert_byte_stream_to_hvc true
       (writable_buffer [x00; x00; x00; x02; xaa; xbb; x00; x00; x00; x01; xcc])
     = Some Aborted.
Proof.
  assert (Hne : [xaa; xbb] <> []) by discriminate.
  assert (Hone : length [xaa; xbb] <> 1%nat) by discriminate.
  assert (Hsmall : Z.of_nat (length (length_prefixed [[xaa; xbb]; [xcc]])) < 2 ^ 32)
    by reflexivity.
  split; [exact Hne | split; [exact Hone | split; [exact Hsmall |]]].
  destruct (convert_twice_fails [xaa; xbb] [[xcc]] Hne Hone Hsmall) as [H | H].
  - exact H.
  - discriminate H.
Defined.

(** X13.  A size of 1 is written as 00 00 00 01, the start code itself: the
    rewrite of a byte stream whose units are all one byte long returns [TRUE]
    and leaves every byte of the buffer as it was. *)
Theorem convert_one_byte_units (asserts : bool) (bytes : list byte) :
  Z.of_nat (length (byte_stream (map (fun b => [b]) bytes))) < 2 ^ 32 ->
  _h265_convert_byte_stream_to_hvc asserts
    (writable_buffer (byte_stream (map (fun b => [b]) bytes)))
  = Some (Returned (true,
      writable_buffer (byte_stream (map (fun b => [b]) bytes)))).
Proof.
  intros Hsmall.
  assert (Hsame : length_prefixed (map (fun b => [b]) bytes)
                  = byte_stream (map (fun b => [b]) bytes)).
  { clear Hsmall. induction bytes as [| b bytes IH]; [reflexivity |].
    cbn [map]. rewrite length_prefixed_cons, byte_stream_cons, IH. reflexivity. }
  rewrite <- Hsame at 2.
  apply (convert_of_loop asserts _ (S (length (byte_stream (map (fun b => [b]) bytes))))
           (Returned (true, length_prefixed (map (fun b => [b]) bytes)))).
  apply (convert_loop_well_formed asserts (map (fun b => [b]) bytes) []).
  - apply Forall_forall. intros payload Hin.
    apply in_map_iff in Hin as (b & <- & _).
    split; [discriminate | reflexivity].
  - exact Hsmall.
  - pose proof (byte_stream_rounds (map (fun b => [b]) bytes)). lia.
Qed.

Lemma one_byte_units_unchanged :
  Z.of_nat (length (byte_stream (map (fun b => [b]) [xaa; x00; xcc]))) < 2 ^ 32
  /\ _h265_convert_byte_stream_to_hvc true
       (writable_buffer [x00; x00; x00; x01; xaa; x00; x00; x00; x01; x00;
                         x00; x00; x00; x01; xcc])
     = Some (Returned (true,
         writable_buffer [x00; x00; x00; x01; xaa; x00; x00; x00; x01; x00;
                          x00; x00; x00; x01; xcc])).
Proof.
  assert (Hsmall :
    Z.of_nat (length (byte_stream (map (fun b => [b]) [xaa; x00; xcc]))) < 2 ^ 32)
    by reflexivity.
  split; [exact Hsmall |].
  exact (convert_one_byte_units true [xaa; x00; xcc] Hsmall).
Defined.

(** X14.  [_start_code_to_size] on four bytes that lie within the buffer
    stores within the buffer and changes these four bytes and no other: they
    become the size, most significant byte first, so that reading them back
    as a big-endian number gives the size. *)
Theorem start_code_to_size_in_place (data : list byte)
  (nal_start_code nal_size : Z) :
  0 <= nal_start_code ->
  nal_start_code + 4 <= Z.of_nat (length data) ->
  0 <= nal_size < 2 ^ 32 ->
  exists data',
    _start_code_to_size data nal_start_code nal_size = Some data'
    /\ data' = firstn (Z.to_nat nal_start_code) data
               ++ be32 nal_size
               ++ skipn (Z.to_nat (nal_start_code + 4)) data
    /\ be32_value (firstn 4 (skipn (Z.to_nat nal_start_code) data')) = nal_size.
Proof.
  intros Hpos Hin Hsize.
  eexists. split; [apply start_code_to_size_defined; lia |].
  replace (Z.to_nat nal_start_code + 4)%nat with (Z.to_nat (nal_start_code + 4))
    by lia.
  split; [reflexivity |].
  set (done := firstn (Z.to_nat nal_start_code) data).
  assert (Hdone : length done = Z.to_nat nal_start_code).
  { unfold done. rewrite length_firstn. lia. }
  rewrite <- Hdone, skipn_length_app.
  change (firstn 4 (be32 nal_size ++ ?rest)) with (be32 nal_size).
  apply be32_value_be32. exact Hsize.
Qed.

Lemma size_258_in_place :
  0 <= 3
  /\ 3 + 4 <= Z.of_nat (length [xaa; xbb; xcc; x00; x00; x00; x01; xdd])
  /\ 0 <= 258 < 2 ^ 32
  /\ _start_code_to_size [xaa; xbb; xcc; x00; x00; x00; x01; xdd] 3 258
     = Some [xaa; xbb; xcc; x00; x00; x01; x02; xdd].
Proof.
  assert (Hpos : 0 <= 3) by lia.
  assert (Hin : 3 + 4 <= Z.of_nat (length [xaa; xbb; xcc; x00; x00; x00; x01; xdd]))
    by (cbn [length]; lia).
  assert (Hsize : 0 <= 258 < 2 ^ 32) by lia.
  split; [exact Hpos | split; [exact Hin | split; [exact Hsize |]]].
  destruct (start_code_to_size_in_place
              [xaa; xbb; xcc; x00; x00; x00; x01; xdd] 3 258 Hpos Hin Hsize)
    as (data' & Hstore & Hdata & _).
  rewrite Hstore, Hdata. reflexivity.
Defined.

(** ** The profile selector *)

(** X15.  [find_best_profile] returns [GST_VAAPI_PROFILE_UNKNOWN] exactly
    when no candidate resolves.  When it returns a profile, that profile is
    the one of some candidate, and no resolving candidate has a higher
    rank. *)
Theorem find_best_profile_is_best (identify : string -> GstVaapiProfile)
  (score : GstVaapiProfile -> N) (caps : GstCaps) :
  (find_best_profile identify score caps = GST_VAAPI_PROFILE_UNKNOWN
   <-> forall v, In v (candidates caps) -> resolve identify v = None)
  /\ (find_best_profile identify score caps <> GST_VAAPI_PROFILE_UNKNOWN ->
      (exists v, In v (candidates caps)
                 /\ resolve identify v
                    = Some (find_best_profile identify score caps))
      /\ (forall v q, In v (candidates caps) -> resolve identify v = Some q ->
            (score q <= score (find_best_profile identify score caps))%N)).
Proof.
  split; [split |].
  - intros Hunknown v Hin.
    destruct (resolve identify v) as [q |] eqn:Ev; [| reflexivity].
    destruct (find_best_profile_known identify score caps v q Hin Ev Hunknown).
  - apply find_best_profile_none_resolves.
  - apply find_best_profile_selected.
Qed.

Lemma demo_caps_best_candidate :
  find_best_profile demo_identify demo_score demo_caps <> GST_VAAPI_PROFILE_UNKNOWN
  /\ forall v q, In v (candidates demo_caps) -> resolve demo_identify v = Some q ->
       (demo_score q
        <= demo_score (find_best_profile demo_identify demo_score demo_caps))%N.
Proof.
  assert (Hknown : find_best_profile demo_identify demo_score demo_caps
                   <> GST_VAAPI_PROFILE_UNKNOWN) by discriminate.
  split; [exact Hknown |].
  exact (proj2 (proj2 (find_best_profile_is_best demo_identify demo_score demo_caps)
                  Hknown)).
Defined.

(** X16.  When the ranks tell the resolving candidates apart (no two
    different profiles among them have the same rank), the selected profile
    does not depend on the order of the candidates nor on how they are spread
    over structures and lists: caps with the same candidates select the same
    profile. *)
Theorem find_best_profile_any_order (identify : string -> GstVaapiProfile)
  (score : GstVaapiProfile -> N) (caps1 caps2 : GstCaps) :
  (forall v1 v2 p q,
     In v1 (candidates caps1) -> In v2 (candidates caps1) ->
     resolve identify v1 = Some p -> resolve identify v2 = Some q ->
     score p = score q -> p = q) ->
  (forall v, In v (candidates caps1) <-> In v (candidates caps2)) ->
  find_best_profile identify score caps1 = find_best_profile identify score caps2.
Proof.
  intros Hinj Hsame.
  destruct (N.eq_dec (find_best_profile identify score caps1)
              GST_VAAPI_PROFILE_UNKNOWN) as [Hunknown | Hknown].
  - rewrite Hunknown. symmetry.
    apply find_best_profile_none_resolves. intros v Hin.
    apply Hsame in Hin.
    destruct (resolve identify v) as [q |] eqn:Ev; [| reflexivity].
    destruct (find_best_profile_known identify score caps1 v q Hin Ev Hunknown).
  - destruct (find_best_profile_selected identify score caps1 Hknown)
      as ((v1 & Hin1 & Hres1) & Hmax1).
    assert (Hknown2 : find_best_profile identify score caps2
                      <> GST_VAAPI_PROFILE_UNKNOWN).
    { apply (find_best_profile_known identify score caps2 v1 _
               (proj1 (Hsame v1) Hin1) Hres1). }
    destruct (find_best_profile_selected identify score caps2 Hknown2)
      as ((v2 & Hin2 & Hres2) & Hmax2).
    apply (Hinj v1 v2 _ _ Hin1 (proj2 (Hsame v2) Hin2) Hres1 Hres2).
    apply N.le_antisymm.
    + apply (Hmax2 v1 _ (proj1 (Hsame v1) Hin1) Hres1).
    + apply (Hmax1 v2 _ (proj2 (Hsame v2) Hin2) Hres2).
Qed.

Lemma main_first_or_last :
  (forall v1 v2 p q,
     In v1 (candidates main_first_caps) -> In v2 (candidates main_first_caps) ->
     resolve demo_identify v1 = Some p -> resolve demo_identify v2 = Some q ->
     demo_score p = demo_score q -> p = q)
  /\ (forall v, In v (candidates main_first_caps)
                <-> In v (candidates main_last_caps))
  /\ find_best_profile demo_identify demo_score main_first_caps
     = find_best_profile demo_identify demo_score main_last_caps.
Proof.
  assert (Hinj : forall v1 v2 p q,
     In v1 (candidates main_first_caps) -> In v2 (candidates main_first_caps) ->
     resolve demo_identify v1 = Some p -> resolve demo_identify v2 = Some q ->
     demo_score p = demo_score q -> p = q).
  { intros v1 v2 p q [<- | [<- | []]] [<- | [<- | []]] Hp Hq;
      injection Hp as <-; injection Hq as <-; intros H;
      try reflexivity; discriminate H. }
  assert (Hsame : forall v, In v (candidates main_first_caps)
                            <-> In v (candidates main_last_caps)).
  { intros v. split; intros [<- | [<- | []]].
    - right; left; reflexivity.
    - left; reflexivity.
    - right; left; reflexivity.
    - left; reflexivity. }
  split; [exact Hinj | split; [exact Hsame |]].
  exact (find_best_profile_any_order demo_identify demo_score
           main_first_caps main_last_caps Hinj Hsame).
Defined.

(** ** The element *)

(** X17.  [gst_vaapiencode_h265_set_config] leaves the encoder as it is and
    returns [TRUE] when there are no allowed caps or no candidate in them
    resolves.  When a candidate resolves it hands one profile to
    [gst_vaapi_encoder_h265_set_max_profile], a known one of the highest rank
    among the candidates, and returns what that call returns. *)
Theorem set_config_outcome (identify : string -> GstVaapiProfile)
  (score : GstVaapiProfile -> N) (Encoder : Type)
  (set_max_profile : Encoder -> GstVaapiProfile -> bool * Encoder)
  (encoder : Encoder) (allowed_caps : option GstCaps) :
  match allowed_caps with
  | None =>
      gst_vaapiencode_h265_set_config identify score Encoder set_max_profile
        encoder None
      = (true, encoder)
  | Some caps =>
      ((forall v, In v (candidates caps) -> resolve identify v = None) ->
       gst_vaapiencode_h265_set_config identify score Encoder set_max_profile
         encoder (Some caps)
       = (true, encoder))
      /\ (forall v q, In v (candidates caps) -> resolve identify v = Some q ->
            exists best,
              gst_vaapiencode_h265_set_config identify score Encoder
                set_max_profile encoder (Some caps)
              = set_max_profile encoder best
              /\ best <> GST_VAAPI_PROFILE_UNKNOWN
              /\ (score q <= score best)%N
              /\ exists v', In v' (candidates caps)
                            /\ resolve identify v' = Some best)
  end.
Proof.
  destruct allowed_caps as [caps |]; [| reflexivity].
  unfold gst_vaapiencode_h265_set_config. split.
  - intros Hnone.
    rewrite (find_best_profile_none_resolves identify score caps Hnone).
    reflexivity.
  - intros v q Hin Hq.
    pose proof (find_best_profile_known identify score caps v q Hin Hq) as Hknown.
    destruct (find_best_profile_selected identify score caps Hknown)
      as (Hcand & Hmax).
    exists (find_best_profile identify score caps).
    split; [| split; [exact Hknown | split; [apply (Hmax v q Hin Hq) | exact Hcand]]].
    replace (find_best_profile identify score caps =? 0)%N with false
      by (symmetry; apply N.eqb_neq; exact Hknown).
    apply pair_of_flag.
Qed.

Lemma set_config_demo_caps :
  In (Some (GString (Some "main"%string))) (candidates demo_caps)
  /\ resolve demo_identify (Some (GString (Some "main"%string))) = Some 1%N
  /\ exists best,
       gst_vaapiencode_h265_set_config demo_identify demo_score
         (option GstVaapiProfile) demo_set_max_profile None (Some demo_caps)
       = demo_set_max_profile None best
       /\ best <> GST_VAAPI_PROFILE_UNKNOWN
       /\ (demo_score 1 <= demo_score best)%N
       /\ exists v', In v' (candidates demo_caps)
                     /\ resolve demo_identify v' = Some best.
Proof.
  assert (Hin : In (Some (GString (Some "main"%string))) (candidates demo_caps))
    by (left; reflexivity).
  assert (Hq : resolve demo_identify (Some (GString (Some "main"%string)))
               = Some 1%N) by reflexivity.
  split; [exact Hin | split; [exact Hq |]].
  exact (proj2 (set_config_outcome demo_identify demo_score
                  (option GstVaapiProfile) demo_set_max_profile None
                  (Some demo_caps)) _ _ Hin Hq).
Defined.

(** X18.  [gst_vaapiencode_h265_get_caps] decides the hvc1 mode by the first
    structure of the allowed caps whose "stream-format" is a string that is
    not [NULL]: [is_hvc] becomes true exactly when that string is "hvc1",
    whatever the structures after it say.  Without allowed caps [is_hvc]
    keeps its value.  [need_codec_data] is set to [is_hvc]. *)
Theorem get_caps_is_hvc (profile_string : GstVaapiProfile -> option string)
  (level_string tier_string : Z -> option string) (tier_unknown : Z)
  (is_hvc : bool) (allowed_caps : option GstCaps) (profile : GstVaapiProfile)
  (tier level : Z) :
  let r := gst_vaapiencode_h265_get_caps profile_string level_string
             tier_string tier_unknown is_hvc allowed_caps profile tier level in
  result_need_codec_data r = result_is_hvc r
  /\ match allowed_caps with
     | None => result_is_hvc r = is_hvc
     | Some structures =>
         result_is_hvc r = true
         <-> exists before structure after,
               structures = before ++ structure :: after
               /\ Forall (fun s => gst_structure_get_string s "stream-format"
                                   = None) before
               /\ gst_structure_get_string structure "stream-format"
                  = Some "hvc1"%string
     end.
Proof.
  cbv zeta. unfold gst_vaapiencode_h265_get_caps.
  cbn [result_need_codec_data result_is_hvc].
  split; [reflexivity |].
  destruct allowed_caps as [structures |]; [| reflexivity].
  rewrite <- stream_format_loop_first.
  destruct (stream_format_loop None structures) as [fmt |].
  - rewrite String.eqb_eq. split; congruence.
  - split; discriminate.
Qed.

Lemma get_caps_hvc1_caps :
  result_is_hvc
    (gst_vaapiencode_h265_get_caps (fun _ => None) (fun _ => None)
       (fun _ => None) (-1) false (Some hvc1_caps) 0%N (-1) 0)
  = true
  /\ exists before structure after,
       hvc1_caps = before ++ structure :: after
       /\ Forall (fun s => gst_structure_get_string s "stream-format" = None)
            before
       /\ gst_structure_get_string structure "stream-format"
          = Some "hvc1"%string.
Proof.
  assert (H : result_is_hvc
                (gst_vaapiencode_h265_get_caps (fun _ => None) (fun _ => None)
                   (fun _ => None) (-1) false (Some hvc1_caps) 0%N (-1) 0)
              = true) by reflexivity.
  split; [exact H |].
  exact (proj1 (proj2 (get_caps_is_hvc (fun _ => None) (fun _ => None)
                         (fun _ => None) (-1) false (Some hvc1_caps) 0%N (-1) 0))
           H).
Defined.

(** X19.  In the caps that [gst_vaapiencode_h265_get_caps] returns,
    "stream-format" is the one string "hvc1" or "byte-stream" that goes with
    [is_hvc], and "alignment" stays "au".  There is a "profile" field exactly
    when the encoder's profile is known, a "level" field exactly when
    moreover the level is not 0, and a "tier" field exactly when moreover the
    tier is known: no tier without a level, no level without a profile. *)
Theorem get_caps_fields (profile_string : GstVaapiProfile -> option string)
  (level_string tier_string : Z -> option string) (tier_unknown : Z)
  (is_hvc : bool) (allowed_caps : option GstCaps) (profile : GstVaapiProfile)
  (tier level : Z) :
  let r := gst_vaapiencode_h265_get_caps profile_string level_string
             tier_string tier_unknown is_hvc allowed_caps profile tier level in
  gst_structure_get_value (result_caps r) "stream-format"
  = Some (GString (Some (if result_is_hvc r then "hvc1" else "byte-stream")%string))
  /\ gst_structure_get_value (result_caps r) "alignment"
     = Some (GString (Some "au"%string))
  /\ (gst_structure_get_value (result_caps r) "profile" <> None
      <-> profile <> GST_VAAPI_PROFILE_UNKNOWN)
  /\ (gst_structure_get_value (result_caps r) "level" <> None
      <-> profile <> GST_VAAPI_PROFILE_UNKNOWN /\ level <> 0)
  /\ (gst_structure_get_value (result_caps r) "tier" <> None
      <-> profile <> GST_VAAPI_PROFILE_UNKNOWN /\ level <> 0
          /\ tier <> tier_unknown).
Proof.
  cbv zeta. unfold gst_vaapiencode_h265_get_caps.
  cbn [result_caps result_is_hvc].
  set (hvc := match allowed_caps with
              | Some structures =>
                  match stream_format_loop None structures with
                  | Some stream_format => String.eqb stream_format "hvc1"
                  | None => false
                  end
              | None => is_hvc
              end).
  clearbody hvc.
  assert (Habsent : forall P : Prop, ~ P -> (@None GValue <> None <-> P)).
  { intros P HP. split; [intros H; destruct (H eq_refl) | intros H; destruct (HP H)]. }
  assert (Hpresent : forall (P : Prop) (v : GValue), P -> (Some v <> None <-> P)).
  { intros P v HP. split; [intros _; exact HP | intros _; discriminate]. }
  destruct (profile =? GST_VAAPI_PROFILE_UNKNOWN)%N eqn:Ep;
    [apply N.eqb_eq in Ep | apply N.eqb_neq in Ep].
  - split; [reflexivity | split; [reflexivity |]].
    split; [| split]; apply Habsent; tauto.
  - destruct (level =? 0) eqn:El; zbool.
    + split; [reflexivity | split; [reflexivity |]].
      split; [| split].
      * apply Hpresent. exact Ep.
      * apply Habsent. tauto.
      * apply Habsent. tauto.
    + destruct (tier =? tier_unknown) eqn:Et; zbool.
      * split; [reflexivity | split; [reflexivity |]].
        split; [| split].
        -- apply Hpresent. exact Ep.
        -- apply Hpresent. split; assumption.
        -- apply Habsent. tauto.
      * split; [reflexivity | split; [reflexivity |]].
        split; [| split].
        -- apply Hpresent. exact Ep.
        -- apply Hpresent. split; assumption.
        -- apply Hpresent. repeat split; assumption.
Qed.



(** X21.  For a buffer that the parent class has allocated with
    [GST_FLOW_OK] and that holds a well-formed byte stream,
    [gst_vaapiencode_h265_alloc_buffer] returns [GST_FLOW_OK] in both modes:
    in hvc1 mode with the buffer in size-prefixed form, in byte-stream mode
    with the buffer as it was.  A result of the parent class other than
    [GST_FLOW_OK] is passed on as it is in both modes. *)
Theorem alloc_buffer_modes (asserts checks : bool)
  (out_buffer0 : option GstBuffer) (payloads : list (list byte)) :
  Forall well_formed_payload payloads ->
  Z.of_nat (length (byte_stream payloads)) < 2 ^ 32 ->
  gst_vaapiencode_h265_alloc_buffer asserts checks true true out_buffer0
    (GST_FLOW_OK, Some (writable_buffer (byte_stream payloads)))
  = Some (Returned (GST_FLOW_OK,
                    Some (writable_buffer (length_prefixed payloads))))
  /\ (forall buf : option GstBuffer,
        gst_vaapiencode_h265_alloc_buffer asserts checks true false out_buffer0
          (GST_FLOW_OK, buf)
        = Some (Returned (GST_FLOW_OK, buf)))
  /\ (forall (is_hvc : bool) (ret : GstFlowReturn) (buf : option GstBuffer),
        ret <> GST_FLOW_OK ->
        gst_vaapiencode_h265_alloc_buffer asserts checks true is_hvc out_buffer0
          (ret, buf)
        = Some (Returned (ret, buf))).
Proof.
  intros Hwf Hsmall.
  unfold gst_vaapiencode_h265_alloc_buffer. rewrite andb_false_r.
  split; [| split].
  - change (negb (GST_FLOW_OK =? GST_FLOW_OK)) with false. cbn [negb].
    rewrite (convert_of_loop asserts (byte_stream payloads)
               (S (length (byte_stream payloads)))
               (Returned (true, length_prefixed payloads))).
    + reflexivity.
    + apply (convert_loop_well_formed asserts payloads []);
        [exact Hwf | exact Hsmall |].
      pose proof (byte_stream_rounds payloads). lia.
  - intros buf. reflexivity.
  - intros is_hvc ret buf Hret.
    replace (ret =? GST_FLOW_OK) with false by (symmetry; zbool; exact Hret).
    reflexivity.
Qed.

Lemma alloc_buffer_two_unit_stream :
  Forall well_formed_payload [[xaa; xbb]; [xcc]]
  /\ Z.of_nat (length (byte_stream [[xaa; xbb]; [xcc]])) < 2 ^ 32
  /\ gst_vaapiencode_h265_alloc_buffer true true true true None
       (GST_FLOW_OK, Some (writable_buffer two_unit_stream))
     = Some (Returned (GST_FLOW_OK,
         Some (writable_buffer
                 [x00; x00; x00; x02; xaa; xbb; x00; x00; x00; x01; xcc]))).
Proof.
  assert (Hwf : Forall well_formed_payload [[xaa; xbb]; [xcc]]).
  { repeat constructor; discriminate. }
  assert (Hsmall : Z.of_nat (length (byte_stream [[xaa; xbb]; [xcc]])) < 2 ^ 32)
    by reflexivity.
  split; [exact Hwf | split; [exact Hsmall |]].
  exact (proj1 (alloc_buffer_modes true true None [[xaa; xbb]; [xcc]] Hwf Hsmall)).
Defined.
